(** * conduit: the [run-multi] command and the metric registration helpers

    A shallow embedding of [cli/cmd] (the [run-multi] command, function
    [runMulti] and the flag wiring of [init]) and of
    [cli/internal/metrics/utils.go] ([newGauge], [newGaugeVec],
    [newGaugeFunc]), with the properties the specification states about
    them.

    Go strings are byte strings: they are [string] here, one [ascii] per
    byte.  Go's [int] is [Z]; no arithmetic of the program leaves the range
    of a machine integer.  Paths follow the Unix flavour of
    [path/filepath]. *)

From Stdlib Require Import ZArith List Bool Lia Ascii String.
From Stdlib Require Import DecimalString DecimalZ.
Import ListNotations.

Local Open Scope string_scope.
Local Open Scope Z_scope.

(** ** Strings as byte lists *)

Definition bytes : Type := list ascii.

Definition b (s : string) : bytes := list_ascii_of_string s.
Definition str (l : bytes) : string := string_of_list_ascii l.

(** ** [fmt]: the verb [%d] *)

(** [fmt.Sprintf("%d", i)]: the decimal digits of [i], with a leading minus
    sign when [i] is negative. *)
Definition sprintf_d (i : Z) : string := NilEmpty.string_of_int (Z.to_int i).

(** ** [path/filepath] on Unix *)

Module Filepath.

Definition Separator : ascii := "/"%char.
Definition dot : ascii := "."%char.

Definition IsPathSeparator (c : ascii) : bool := Ascii.eqb c Separator.

(** The loop of [filepath.Ext], which walks [path] from its last byte
    towards the first: [before] holds the bytes not yet visited, last byte
    first, and [seen] the bytes already passed, in path order.  It stops at
    a separator with no extension, and at a dot with the dot and all that
    follows. *)
Fixpoint ext_scan (before seen : bytes) : bytes :=
  match before with
  | [] => []
  | c :: more =>
      if IsPathSeparator c then []
      else if Ascii.eqb c dot then c :: seen
      else ext_scan more (c :: seen)
  end.

Definition Ext (path : string) : string := str (ext_scan (rev (b path)) []).

(** [path] cut into its elements at every separator.  The result is never
    empty: a path without separator is its own single element. *)
Fixpoint elements (path : bytes) : list bytes :=
  match path with
  | [] => [[]]
  | c :: rest =>
      if IsPathSeparator c then [] :: elements rest
      else match elements rest with
           | e :: es => (c :: e) :: es
           | [] => [[c]]
           end
  end.

Definition is_dot (e : bytes) : bool :=
  match e with [c] => Ascii.eqb c dot | _ => false end.

Definition is_dotdot (e : bytes) : bool :=
  match e with [c; d] => Ascii.eqb c dot && Ascii.eqb d dot | _ => false end.

(** One round of the main loop of [filepath.Clean], on the element that
    starts at the read position.  [out] is the output buffer as a stack of
    elements, the last one written first.  An empty element and [.] write
    nothing.  [..] removes the last element written unless the buffer is at
    its [dotdot] mark, that is, unless it is empty or holds only leading
    [..] elements; there a rooted path drops the [..] and an unrooted one
    keeps it.  Any other element is appended. *)
Definition clean_step (rooted : bool) (out : list bytes) (e : bytes)
  : list bytes :=
  match e with
  | [] => out
  | _ =>
      if is_dot e then out
      else if is_dotdot e then
        match out with
        | top :: below =>
            if is_dotdot top
            then (if rooted then out else e :: out)
            else below
        | [] => if rooted then out else [e]
        end
      else e :: out
  end.

(** The buffer written back as a string: elements separated by [/]. *)
Fixpoint join_elements (es : list bytes) : bytes :=
  match es with
  | [] => []
  | [e] => e
  | e :: rest => (e ++ Separator :: join_elements rest)%list
  end.

Definition is_rooted (path : bytes) : bool :=
  match path with
  | c :: _ => IsPathSeparator c
  | [] => false
  end.

Definition clean_bytes (path : bytes) : bytes :=
  let rooted := is_rooted path in
  let out := rev (fold_left (clean_step rooted) (elements path) []) in
  if rooted then Separator :: join_elements out
  else match out with
       | [] => [dot]
       | _ => join_elements out
       end.

(** [filepath.Clean]: the shortest path equivalent to [path] by purely
    lexical processing.  The empty path becomes [.]. *)
Definition Clean (path : string) : string := str (clean_bytes (b path)).

(** [filepath.Join] of two elements: empty elements are ignored, the rest is
    joined with the separator from the first non-empty element on, and the
    result is cleaned; with nothing to join the result is empty. *)
Definition Join (dir name : string) : string :=
  match dir, name with
  | EmptyString, EmptyString => ""
  | EmptyString, _ => Clean name
  | _, _ => Clean (dir ++ "/" ++ name)
  end.

(** *** Vocabulary for the facts on paths *)

(** No byte is a separator. *)
Definition nosep (l : bytes) : Prop :=
  Forall (fun c => IsPathSeparator c = false) l.

(** What [join_elements] writes before the last element. *)
Fixpoint join_prefix (es : list bytes) : bytes :=
  match es with
  | [] => []
  | e :: rest => (e ++ Separator :: join_prefix rest)%list
  end.

(** The bytes start with a separator, or there are none. *)
Definition at_separator (rest : bytes) : Prop :=
  match rest with
  | [] => True
  | c :: _ => IsPathSeparator c = true
  end.

End Filepath.

(** ** Go errors *)

(** An error value: one made from a message alone ([errors.New], or
    [fmt.Errorf] without [%w]), or one that wraps another error
    ([fmt.Errorf] with [%w]).  The errors of the collaborators ([os],
    [config], [conduit], [prometheus]) are arbitrary values of this type. *)
Inductive error : Type :=
| errorString (msg : string)
| wrapError (msg : string) (err : error).

(** The method [Error()]. *)
Definition Error (e : error) : string :=
  match e with
  | errorString msg => msg
  | wrapError msg _ => msg
  end.

(** [errors.Unwrap]. *)
Definition Unwrap (e : error) : option error :=
  match e with
  | errorString _ => None
  | wrapError _ err => Some err
  end.

(** [fmt.Errorf(prefix + "%w", err)]. *)
Definition Errorf_w (prefix : string) (err : error) : error :=
  wrapError (prefix ++ Error err) err.

(** The line feed, which Rocq strings have no escape for. *)
Definition nl : string := String "010"%char "".

(** ** The [run-multi] command *)

Module RunMulti.

(** Options of [config.LoadOrCreate], with the fields [runMulti] sets. *)
Record Options (float64 : Type) : Type := {
  DataDir : string;
  PsiphonConfigPath : string;
  UseEmbeddedConfig : bool;
  MaxClients : Z;
  BandwidthMbps : float64;
  Verbosity : Z;
  StatsFile : string
}.
Arguments DataDir {float64} _.
Arguments PsiphonConfigPath {float64} _.
Arguments UseEmbeddedConfig {float64} _.
Arguments MaxClients {float64} _.
Arguments BandwidthMbps {float64} _.
Arguments Verbosity {float64} _.
Arguments StatsFile {float64} _.

(** The package-level variables the flags of [run-multi] are bound to. *)
Record Flags (float64 : Type) : Type := {
  multiInstances : Z;
  multiMaxClients : Z;
  multiBandwidthMbps : float64;
  multiPsiphonConfig : string;
  multiStatsFilePattern : string
}.
Arguments multiInstances {float64} _.
Arguments multiMaxClients {float64} _.
Arguments multiBandwidthMbps {float64} _.
Arguments multiPsiphonConfig {float64} _.
Arguments multiStatsFilePattern {float64} _.

(** What a run leaves for an observer, in order: text written to standard
    output, and the moment the context's [Done] channel is closed. *)
Inductive Event : Type :=
| Printed (text : string)
| CtxCancelled.

Definition Event_eq_dec (x y : Event) : {x = y} + {x <> y}.
Proof. decide equality. apply string_dec. Defined.

(** The world [runMulti] acts on: the host (file system and whatever else
    the collaborators keep), and the events observed so far. *)
Record World (Host : Type) : Type := {
  host : Host;
  log : list Event
}.
Arguments host {Host} _.
Arguments log {Host} _.

(** The collaborators of [runMulti] that are not part of the command: the
    packages [os], [fmt] (for a [float64]), [config] and [conduit], and the
    helpers [GetDataDir] and [Verbosity] of package [cmd].  Each one that
    touches the host takes the host and gives it back. *)
Record Externals (float64 Host Config MultiService : Type) : Type := {
  float64_eqb : float64 -> float64 -> bool;
  fmt_Sprintf_0f : float64 -> string;
  config_UnlimitedBandwidth : float64;
  config_HasEmbeddedConfig : bool;
  config_LoadOrCreate : Options float64 -> Host -> (error + Config) * Host;
  conduit_NewMultiService : list Config -> Host -> (error + MultiService) * Host;
  (** [Run(ctx)]; the boolean tells whether [ctx] was cancelled while the
      service ran. *)
  conduit_Run : MultiService -> bool -> Host -> option error * Host;
  cmd_GetDataDir : string;
  cmd_Verbosity : Z;
  (** [os.IsNotExist] of the error of [os.Stat]. *)
  os_Stat_IsNotExist : string -> Host -> bool;
  os_MkdirAll : string -> Z -> Host -> option error * Host
}.
Arguments float64_eqb {float64 Host Config MultiService} _.
Arguments fmt_Sprintf_0f {float64 Host Config MultiService} _.
Arguments config_UnlimitedBandwidth {float64 Host Config MultiService} _.
Arguments config_HasEmbeddedConfig {float64 Host Config MultiService} _.
Arguments config_LoadOrCreate {float64 Host Config MultiService} _.
Arguments conduit_NewMultiService {float64 Host Config MultiService} _.
Arguments conduit_Run {float64 Host Config MultiService} _.
Arguments cmd_GetDataDir {float64 Host Config MultiService} _.
Arguments cmd_Verbosity {float64 Host Config MultiService} _.
Arguments os_Stat_IsNotExist {float64 Host Config MultiService} _.
Arguments os_MkdirAll {float64 Host Config MultiService} _.

(** *** The shutdown bridge: signals, the listener goroutine, the context *)

Inductive Signal : Type := SIGINT | SIGTERM.

(** Where the goroutine [go func() { <-sigChan; Println; cancel() }()]
    stands. *)
Inductive BridgePC : Type := AtReceive | AtPrintln | AtCancel | Exited.

(** What the rest of the machine does while the main goroutine goes on: the
    runtime delivers a signal [signal.Notify] subscribed to, or the listener
    goroutine runs its next statement. *)
Inductive AsyncEvent : Type :=
| Deliver (sig : Signal)
| Listener.

(** The state shared by the goroutines of one [runMulti]: the buffered
    channel [sigChan], the listener, and whether [ctx] is cancelled. *)
Record Conc : Type := {
  sigChan : list Signal;
  pc : BridgePC;
  ctxDone : bool
}.

(** The interleaving points of the main goroutine, with the events that
    happen at each: after the listener starts and before the startup
    message, while [Run] blocks, and after the result of [Run] is examined. *)
Record Schedule : Type := {
  beforeRun : list AsyncEvent;
  duringRun : list AsyncEvent;
  afterRun : list AsyncEvent
}.

Definition shutdownNotice : string :=
  nl ++ "Shutting down all instances..." ++ nl.

(** No signal is delivered among the events. *)
Definition noSignal (evs : list AsyncEvent) : Prop :=
  forall sig, ~ In (Deliver sig) evs.

(** How often the shutdown notice was printed, and how often a context was
    cancelled, in a stretch of the log. *)
Definition notices (l : list Event) : nat :=
  count_occ Event_eq_dec l (Printed shutdownNotice).

Definition cancellations (l : list Event) : nat :=
  count_occ Event_eq_dec l CtxCancelled.

(** What holds of the events added to the log since [runMulti] started,
    by the place the listener stands at. *)
Definition progress (c : Conc) (added : list Event) : Prop :=
  match pc c with
  | AtReceive | AtPrintln =>
      notices added = 0%nat /\ cancellations added = 0%nat /\ ctxDone c = false
  | AtCancel =>
      notices added = 1%nat /\ cancellations added = 0%nat /\ ctxDone c = false
  | Exited =>
      notices added = 1%nat /\ cancellations added = 1%nat /\ ctxDone c = true
  end.

Definition since {Host : Type} (l0 : list Event) (s : Conc * World Host)
  : Prop :=
  exists added, log (snd s) = (l0 ++ added)%list /\ progress (fst s) added.

Section Command.

Context {float64 Host Config MultiService : Type}.
Variable E : Externals float64 Host Config MultiService.
Variable F : Flags float64.

Definition emit (ev : Event) (w : World Host) : World Host :=
  {| host := host w; log := (log w ++ [ev])%list |}.

(** [cancel()]: the first call closes [Done]; later calls do nothing. *)
Definition cancel (s : Conc * World Host) : Conc * World Host :=
  let (c, w) := s in
  if ctxDone c then s
  else ({| sigChan := sigChan c; pc := pc c; ctxDone := true |},
        emit CtxCancelled w).

(** One asynchronous event.  [signal.Notify] never blocks sending to the
    channel: with the buffer of capacity one full, the signal is dropped.
    The listener blocks at its receive while the channel is empty. *)
Definition async (s : Conc * World Host) (ev : AsyncEvent)
  : Conc * World Host :=
  let (c, w) := s in
  match ev with
  | Deliver sig =>
      if (List.length (sigChan c) <? 1)%nat
      then ({| sigChan := (sigChan c ++ [sig])%list; pc := pc c;
               ctxDone := ctxDone c |}, w)
      else s
  | Listener =>
      match pc c with
      | AtReceive =>
          match sigChan c with
          | [] => s
          | _ :: rest =>
              ({| sigChan := rest; pc := AtPrintln; ctxDone := ctxDone c |}, w)
          end
      | AtPrintln =>
          ({| sigChan := sigChan c; pc := AtCancel; ctxDone := ctxDone c |},
           emit (Printed shutdownNotice) w)
      | AtCancel =>
          cancel ({| sigChan := sigChan c; pc := Exited;
                     ctxDone := ctxDone c |}, w)
      | Exited => s
      end
  end.

Definition asyncs (evs : list AsyncEvent) (s : Conc * World Host)
  : Conc * World Host :=
  fold_left async evs s.

(** *** The per-instance options (lines 107 to 125) *)

(** The stats file of instance [i]: empty without a pattern; otherwise the
    pattern with [-instance-<i>] put before its extension, under the base
    directory. *)
Definition statsFilePath (baseDataDir pattern : string) (i : Z) : string :=
  if String.eqb pattern "" then ""
  else
    let ext := Filepath.Ext pattern in
    let base :=
      substring 0 (String.length pattern - String.length ext) pattern in
    Filepath.Join baseDataDir (base ++ "-instance-" ++ sprintf_d i ++ ext).

Definition instanceDataDir (baseDataDir : string) (i : Z) : string :=
  Filepath.Join baseDataDir ("instance-" ++ sprintf_d i).

Definition instanceOptions (baseDataDir effectiveConfigPath : string)
    (useEmbedded : bool) (i : Z) : Options float64 :=
  {| DataDir := instanceDataDir baseDataDir i;
     PsiphonConfigPath := effectiveConfigPath;
     UseEmbeddedConfig := useEmbedded;
     MaxClients := multiMaxClients F;
     BandwidthMbps := multiBandwidthMbps F;
     Verbosity := cmd_Verbosity E;
     StatsFile := statsFilePath baseDataDir (multiStatsFilePattern F) i |}.

(** The values the loop variable [i] of line 106 takes. *)
Definition instanceIndices (n : Z) : list Z :=
  map Z.of_nat (seq 0 (Z.to_nat n)).

(** *** Configuration (lines 79 to 136) *)

(** The psiphon config source (lines 84 to 96): the effective path and
    whether the embedded config is used, or the error returned. *)
Definition configSource (h : Host) : error + (string * bool) :=
  if negb (String.eqb (multiPsiphonConfig F) "") then
    if os_Stat_IsNotExist E (multiPsiphonConfig F) h
    then inl (errorString
                ("psiphon config file not found: " ++ multiPsiphonConfig F))
    else inr (multiPsiphonConfig F, false)
  else if config_HasEmbeddedConfig E then inr (multiPsiphonConfig F, true)
  else inl (errorString
    "psiphon config required: use --psiphon-config flag or build with embedded config").

(** The loop of lines 106 to 130, with [todo] rounds left from index [i]
    on. *)
Fixpoint instanceLoop (baseDataDir effectiveConfigPath : string)
    (useEmbedded : bool) (todo : nat) (i : Z) (instanceConfigs : list Config)
    (h : Host) : (error + list Config) * Host :=
  match todo with
  | O => (inr instanceConfigs, h)
  | S todo' =>
      match config_LoadOrCreate E
              (instanceOptions baseDataDir effectiveConfigPath useEmbedded i) h
      with
      | (inl err, h') =>
          (inl (Errorf_w ("failed to create config for instance "
                          ++ sprintf_d i ++ ": ") err), h')
      | (inr cfg, h') =>
          instanceLoop baseDataDir effectiveConfigPath useEmbedded todo'
            (i + 1) (instanceConfigs ++ [cfg])%list h'
      end
  end.

(** Lines 79 to 136: everything up to the multi-instance service. *)
Definition setup (w : World Host) : (error + MultiService) * World Host :=
  let back h := {| host := h; log := log w |} in
  if (multiInstances F <? 1) || (multiInstances F >? 32) then
    (inl (errorString "instances must be between 1 and 32"), w)
  else
    match configSource (host w) with
    | inl err => (inl err, w)
    | inr (effectiveConfigPath, useEmbedded) =>
        let baseDataDir := cmd_GetDataDir E in
        match os_MkdirAll E baseDataDir 448 (host w) with
        | (Some err, h1) =>
            (inl (Errorf_w "failed to create base data directory: " err),
             back h1)
        | (None, h1) =>
            match instanceLoop baseDataDir effectiveConfigPath useEmbedded
                    (Z.to_nat (multiInstances F)) 0 [] h1 with
            | (inl err, h2) => (inl err, back h2)
            | (inr instanceConfigs, h2) =>
                match conduit_NewMultiService E instanceConfigs h2 with
                | (inl err, h3) =>
                    (inl (Errorf_w
                            "failed to create multi-instance service: " err),
                     back h3)
                | (inr multiService, h3) => (inr multiService, back h3)
                end
            end
        end
    end.

(** *** Running (lines 138 to 166) *)

Definition startupMessage : string :=
  let bandwidthStr :=
    if negb (float64_eqb E (multiBandwidthMbps F) (config_UnlimitedBandwidth E))
    then fmt_Sprintf_0f E (multiBandwidthMbps F) ++ " Mbps"
    else "unlimited" in
  "Starting " ++ sprintf_d (multiInstances F)
  ++ " Psiphon Conduit instances (Max Clients/instance: "
  ++ sprintf_d (multiMaxClients F) ++ ", Bandwidth/instance: "
  ++ bandwidthStr ++ ")" ++ nl.

(** Lines 139 to 158, and [Run] as long as it blocks: a fresh context, the
    channel with [signal.Notify], the listener started, the startup
    message. *)
Definition untilRunReturns (sched : Schedule) (w : World Host)
  : Conc * World Host :=
  let fresh := {| sigChan := []; pc := AtReceive; ctxDone := false |} in
  let (c1, w1) := asyncs (beforeRun sched) (fresh, w) in
  asyncs (duringRun sched) (c1, emit (Printed startupMessage) w1).

(** Lines 161 to 166 and the deferred [cancel()]. *)
Definition serve (multiService : MultiService) (sched : Schedule)
    (w : World Host) : option error * World Host :=
  let (c, w1) := untilRunReturns sched w in
  let (err, h) := conduit_Run E multiService (ctxDone c) (host w1) in
  let w2 := {| host := h; log := log w1 |} in
  let finish : option error * World Host :=
    let (c3, w3) := asyncs (afterRun sched) (c, w2) in
    (None, snd (cancel (c3, emit (Printed ("All instances stopped." ++ nl)) w3)))
  in
  match err with
  | Some e =>
      if negb (ctxDone c)
      then (Some (Errorf_w "multi-instance service error: " e),
            snd (cancel (c, w2)))
      else finish
  | None => finish
  end.

Definition runMulti (sched : Schedule) (w : World Host)
  : option error * World Host :=
  match setup w with
  | (inl err, w') => (Some err, w')
  | (inr multiService, w') => serve multiService sched w'
  end.

End Command.

End RunMulti.

(** ** The flag [--stats-file] (function [init], lines 69 and 70) *)

Module Pflag.

(** A string flag of [pflag]: its default, and the value it takes when it
    is given without one ([NoOptDefVal]; empty means the flag needs an
    argument). *)
Record StringFlag : Type := {
  DefValue : string;
  NoOptDefVal : string
}.

(** [StringVarP(&multiStatsFilePattern, "stats-file", "s", "", ...)] followed
    by [Lookup("stats-file").NoOptDefVal = "stats.json"]. *)
Definition statsFile : StringFlag :=
  {| DefValue := ""; NoOptDefVal := "stats.json" |}.

(** How a command line uses the flag: not at all, as [--stats-file] alone
    (with the argument that follows it on the command line, if any), or as
    [--stats-file=value]. *)
Inductive Usage : Type :=
| Omitted
| Bare (following : option string)
| Assigned (value : string).

(** The value the bound variable holds after parsing ([None]: parsing
    fails).  A flag with a [NoOptDefVal] never takes the following argument
    as its value. *)
Definition parsed (f : StringFlag) (u : Usage) : option string :=
  match u with
  | Omitted => Some (DefValue f)
  | Assigned value => Some value
  | Bare following =>
      if negb (String.eqb (NoOptDefVal f) "") then Some (NoOptDefVal f)
      else following
  end.

End Pflag.

(** ** The metric registration helpers ([metrics/utils.go]) *)

Module Metrics.

(** The error of [prometheus.Register]: [AlreadyRegisteredError] with the
    collector registered before and the one refused, or any other error. *)
Inductive RegisterError (Collector : Type) : Type :=
| AlreadyRegisteredError (ExistingCollector NewCollector : Collector)
| OtherError (err : error).
Arguments AlreadyRegisteredError {Collector} _ _.
Arguments OtherError {Collector} _.

(** The value a [panic] carries: the two helpers' calls are [panic("...")]
    and [panic(err)]. *)
Inductive PanicValue : Type :=
| PanicString (msg : string)
| PanicError (err : error).

(** A call either returns or panics. *)
Inductive Outcome (A : Type) : Type :=
| Returned (a : A)
| Panicked (v : PanicValue).
Arguments Returned {A} _.
Arguments Panicked {A} _.

(** The part of [prometheus] the helpers use.  [Proc] is the state of the
    process: the heap collectors are allocated in and the default registry.
    A type assertion on a collector either succeeds or not. *)
Record Prometheus (GaugeOpts Func Collector Proc : Type) : Type := {
  NewGauge : GaugeOpts -> Proc -> Collector * Proc;
  NewGaugeVec : GaugeOpts -> list string -> Proc -> Collector * Proc;
  NewGaugeFunc : GaugeOpts -> Func -> Proc -> Collector * Proc;
  Register : Collector -> Proc -> option (RegisterError Collector) * Proc;
  isGauge : Collector -> bool;
  isGaugeVec : Collector -> bool;
  isGaugeFunc : Collector -> bool
}.
Arguments NewGauge {GaugeOpts Func Collector Proc} _.
Arguments NewGaugeVec {GaugeOpts Func Collector Proc} _.
Arguments NewGaugeFunc {GaugeOpts Func Collector Proc} _.
Arguments Register {GaugeOpts Func Collector Proc} _.
Arguments isGauge {GaugeOpts Func Collector Proc} _.
Arguments isGaugeVec {GaugeOpts Func Collector Proc} _.
Arguments isGaugeFunc {GaugeOpts Func Collector Proc} _.

Section Helpers.

Context {GaugeOpts Func Collector Proc : Type}.
Variable P : Prometheus GaugeOpts Func Collector Proc.

Definition differentType : PanicValue :=
  PanicString "different metric type registration".

Definition newGauge (gaugeOpts : GaugeOpts) (p : Proc)
  : Outcome Collector * Proc :=
  let (ev, p1) := NewGauge P gaugeOpts p in
  let (err, p2) := Register P ev p1 in
  match err with
  | Some (AlreadyRegisteredError existing _) =>
      if isGauge P existing then (Returned existing, p2)
      else (Panicked differentType, p2)
  | Some (OtherError e) => (Panicked (PanicError e), p2)
  | None => (Returned ev, p2)
  end.

Definition newGaugeVec (gaugeOpts : GaugeOpts) (labels : list string)
    (p : Proc) : Outcome Collector * Proc :=
  let (ev, p1) := NewGaugeVec P gaugeOpts labels p in
  let (err, p2) := Register P ev p1 in
  match err with
  | Some (AlreadyRegisteredError existing _) =>
      if isGaugeVec P existing then (Returned existing, p2)
      else (Panicked differentType, p2)
  | Some (OtherError e) => (Panicked (PanicError e), p2)
  | None => (Returned ev, p2)
  end.

Definition newGaugeFunc (gaugeOpts : GaugeOpts) (function : Func)
    (p : Proc) : Outcome Collector * Proc :=
  let (ev, p1) := NewGaugeFunc P gaugeOpts function p in
  let (err, p2) := Register P ev p1 in
  match err with
  | Some (AlreadyRegisteredError existing _) =>
      if isGaugeFunc P existing then (Returned existing, p2)
      else (Panicked differentType, p2)
  | Some (OtherError e) => (Panicked (PanicError e), p2)
  | None => (Returned ev, p2)
  end.

End Helpers.



(** *** The default registry *)

Inductive Kind : Type := KGauge | KGaugeVec | KGaugeFunc.

(** [prometheus.GaugeOpts], with its constant labels in the order of their
    names, the order in which a descriptor holds them. *)
Record GaugeOpts : Type := {
  Namespace : string;
  Subsystem : string;
  Name : string;
  Help : string;
  ConstLabels : list (string * string)
}.

(** The descriptor of a metric ([prometheus.Desc]). *)
Record Desc : Type := {
  fqName : string;
  help : string;
  constLabels : list (string * string);
  variableLabels : list string
}.

(** A collector in the heap: its address tells two collectors built from
    the same options apart.  The helpers build collectors of one
    descriptor. *)
Record Collector : Type := {
  addr : nat;
  kind : Kind;
  desc : Desc
}.

Record Proc : Type := {
  next : nat;
  registry : list Collector
}.

(** [prometheus.BuildFQName]: the non-empty parts joined by underscores,
    and nothing when the name is empty. *)
Definition BuildFQName (namespace subsystem name : string) : string :=
  if String.eqb name "" then ""
  else if negb (String.eqb namespace "") && negb (String.eqb subsystem "")
  then namespace ++ "_" ++ subsystem ++ "_" ++ name
  else if negb (String.eqb namespace "") then namespace ++ "_" ++ name
  else if negb (String.eqb subsystem "") then subsystem ++ "_" ++ name
  else name.

Definition descOf (o : GaugeOpts) (labels : list string) : Desc :=
  {| fqName := BuildFQName (Namespace o) (Subsystem o) (Name o);
     help := Help o;
     constLabels := ConstLabels o;
     variableLabels := labels |}.

Definition alloc (k : Kind) (o : GaugeOpts) (labels : list string) (p : Proc)
  : Collector * Proc :=
  ({| addr := next p; kind := k; desc := descOf o labels |},
   {| next := S (next p); registry := registry p |}).

(** What identifies a descriptor in the registry: its fully-qualified name
    and the values of its constant labels. *)
Definition descId (d : Desc) : string * list string :=
  (fqName d, map snd (constLabels d)).

(** What descriptors of one fully-qualified name must agree on: the help
    string and the names of the constant and variable labels. *)
Definition dimOf (d : Desc) : string * (list string * list string) :=
  (help d, (map fst (constLabels d), variableLabels d)).

Definition descId_eq_dec (x y : string * list string) : {x = y} + {x <> y}.
Proof. decide equality; [apply (list_eq_dec string_dec) | apply string_dec]. Defined.

Definition dimOf_eq_dec (x y : string * (list string * list string))
  : {x = y} + {x <> y}.
Proof.
  decide equality; [|apply string_dec].
  decide equality; apply (list_eq_dec string_dec).
Defined.

Definition sameId (c : Collector) (d : Desc) : bool :=
  if descId_eq_dec (descId (desc c)) (descId d) then true else false.

(** A registered collector of the same fully-qualified name as [d] whose
    help string or label names are not those of [d]. *)
Definition clashes (c : Collector) (d : Desc) : bool :=
  String.eqb (fqName (desc c)) (fqName d) &&
  (if dimOf_eq_dec (dimOf (desc c)) (dimOf d) then false else true).

(** The two plain errors of [Register]; the library's texts name the
    descriptor as well. *)
Definition invalidDesc : error := errorString "descriptor is invalid".

Definition inconsistentDesc : error :=
  errorString
    "a previously registered descriptor with the same fully-qualified name has different label names or a different help string".

(** [Register] of [prometheus], a library outside this repository, on the
    default registry, for a collector of one descriptor.  In the order of
    the library: a descriptor that is invalid ([valid] is the library's
    check of metric and label names) is refused with an error; so is one
    whose fully-qualified name is registered with another help string or
    other label names; a descriptor registered already (same name, same
    constant label values) is answered with [AlreadyRegisteredError] and
    the collector registered before; otherwise the collector is
    registered. *)
Definition registerDesc (valid : Desc -> bool) (c : Collector) (p : Proc)
  : option (RegisterError Collector) * Proc :=
  if negb (valid (desc c)) then (Some (OtherError invalidDesc), p)
  else if existsb (fun c' => clashes c' (desc c)) (registry p)
  then (Some (OtherError inconsistentDesc), p)
  else match find (fun c' => sameId c' (desc c)) (registry p) with
       | Some existing => (Some (AlreadyRegisteredError existing c), p)
       | None => (None, {| next := next p; registry := c :: registry p |})
       end.

(** The library with that registry.  The type assertions of the helpers:
    [prometheus.Gauge] is the interface of a gauge; [*prometheus.GaugeVec]
    is a concrete type; [prometheus.GaugeFunc] is the interface of [Metric]
    and [Collector] alone, which a gauge has as well and a gauge vector has
    not. *)
Definition prometheus (valid : Desc -> bool) (Func : Type)
  : Prometheus GaugeOpts Func Collector Proc :=
  {| NewGauge := fun o => alloc KGauge o [];
     NewGaugeVec := fun o labels => alloc KGaugeVec o labels;
     NewGaugeFunc := fun o _ => alloc KGaugeFunc o [];
     Register := registerDesc valid;
     isGauge := fun c => match kind c with KGauge => true | _ => false end;
     isGaugeVec := fun c => match kind c with KGaugeVec => true | _ => false end;
     isGaugeFunc := fun c => match kind c with KGaugeVec => false | _ => true end
  |}.

(** The least every version of the library asks of a descriptor: a
    fully-qualified name that is not empty. *)
Definition named (d : Desc) : bool := negb (String.eqb (fqName d) "").

(** A registry as registrations leave it: no descriptor twice, one help
    string and one set of label names per fully-qualified name, valid
    descriptors only. *)
Definition consistent (valid : Desc -> bool) (reg : list Collector) : Prop :=
  NoDup (map (fun c => descId (desc c)) reg) /\
  (forall c c', In c reg -> In c' reg ->
     fqName (desc c) = fqName (desc c') ->
     dimOf (desc c) = dimOf (desc c')) /\
  (forall c, In c reg -> valid (desc c) = true).

End Metrics.

(** ** The specification's wording *)

Module Spec.

Import Filepath.

(** The split of section 4.1 as it is worded, at the last dot of the
    pattern wherever that dot stands; a pattern without a dot is all stem. *)
Fixpoint lastDot_scan (before seen : bytes) : option (bytes * bytes) :=
  match before with
  | [] => None
  | c :: more =>
      if Ascii.eqb c dot then Some (rev more, c :: seen)
      else lastDot_scan more (c :: seen)
  end.

Definition splitLastDot (pattern : string) : string * string :=
  match lastDot_scan (rev (b pattern)) [] with
  | Some (stem, ext) => (str stem, str ext)
  | None => (pattern, "")
  end.

(** The stats file path of section 4.1 with that split. *)
Definition statsFilePath_spec (baseDir pattern : string) (i : Z) : string :=
  if String.eqb pattern "" then ""
  else
    let (stem, ext) := splitLastDot pattern in
    Join baseDir (stem ++ "-instance-" ++ sprintf_d i ++ ext).

(** The final element of a path: what follows its last separator, the whole
    path when it has none. *)
Definition finalElement (path : string) : string :=
  str (last (elements (b path)) []).

(** Where an instance takes its network config from (section 3). *)
Inductive NetworkConfigSource : Type :=
| SharedFile (path : string)
| EmbeddedDefault.

(** Modelled from the spec: the type [config.Config], which is declared
    outside the source at hand.  Section 3 lists the fields of an
    InstanceConfig; its ordinal is the position in the list the orchestrator
    is created from, as the options of [LoadOrCreate] carry none. *)
Record InstanceConfig (float64 : Type) : Type := {
  dataDir : string;
  networkConfigSource : NetworkConfigSource;
  maxClients : Z;
  bandwidthLimit : float64;
  statsFilePath : string;
  verbosity : Z
}.
Arguments dataDir {float64} _.
Arguments networkConfigSource {float64} _.
Arguments maxClients {float64} _.
Arguments bandwidthLimit {float64} _.
Arguments statsFilePath {float64} _.
Arguments verbosity {float64} _.

Definition build {float64 : Type} (o : RunMulti.Options float64)
  : InstanceConfig float64 :=
  {| dataDir := RunMulti.DataDir o;
     networkConfigSource :=
       if RunMulti.UseEmbeddedConfig o then EmbeddedDefault
       else SharedFile (RunMulti.PsiphonConfigPath o);
     maxClients := RunMulti.MaxClients o;
     bandwidthLimit := RunMulti.BandwidthMbps o;
     statsFilePath := RunMulti.StatsFile o;
     verbosity := RunMulti.Verbosity o |}.

(** Modelled from the spec: the function [config.LoadOrCreate], which is
    defined outside the source at hand.  Section 4.1 has the builder total,
    with no failure path for validated input, copying the shared parameters
    verbatim into the configuration, and with no side effect beyond pure
    construction. *)
Definition LoadOrCreate_spec {float64 Host : Type}
    (o : RunMulti.Options float64) (h : Host)
  : (error + InstanceConfig float64) * Host :=
  (inr (build o), h).

End Spec.

(** ** A concrete host *)

Module Demo.

Import RunMulti.

(** A host that is the list of the paths that exist, with bandwidths in
    whole Mbps, the builder of the specification, and a service that is the
    list of its configurations and fails as soon as it runs. *)
Definition externals
  : Externals Z (list string) (Spec.InstanceConfig Z)
      (list (Spec.InstanceConfig Z)) :=
  {| float64_eqb := Z.eqb;
     fmt_Sprintf_0f := sprintf_d;
     config_UnlimitedBandwidth := -1;
     config_HasEmbeddedConfig := false;
     config_LoadOrCreate := Spec.LoadOrCreate_spec;
     conduit_NewMultiService := fun cfgs h => (inr cfgs, h);
     conduit_Run := fun _ _ h => (Some (errorString "broker unreachable"), h);
     cmd_GetDataDir := "/tmp/x";
     cmd_Verbosity := 0;
     os_Stat_IsNotExist := fun p h => negb (existsb (String.eqb p) h);
     os_MkdirAll := fun p _ h => (None, p :: h) |}.


(** [run-multi -n 4 -c ./config.json --stats-file] *)
Definition flags : Flags Z :=
  {| multiInstances := 4;
     multiMaxClients := 50;
     multiBandwidthMbps := 40;
     multiPsiphonConfig := "./config.json";
     multiStatsFilePattern := "stats.json" |}.

Definition withInstances (n : Z) : Flags Z :=
  {| multiInstances := n;
     multiMaxClients := 50;
     multiBandwidthMbps := 40;
     multiPsiphonConfig := "./config.json";
     multiStatsFilePattern := "stats.json" |}.


Definition world : World (list string) :=
  {| host := ["./config.json"]; log := [] |}.

(** A signal, and the listener run to its end. *)
Definition interrupted : list AsyncEvent :=
  [Deliver SIGINT; Listener; Listener; Listener].

Definition quiet : Schedule :=
  {| beforeRun := []; duringRun := []; afterRun := [] |}.

Definition interruptedTwice : Schedule :=
  {| beforeRun := [];
     duringRun := (interrupted ++ [Deliver SIGTERM; Listener])%list;
     afterRun := [Deliver SIGINT; Listener] |}.

End Demo.

(** ** Vocabulary for the further properties *)

Module Vocabulary.

Import RunMulti.

(** The text the main goroutine prints last (line 165). *)
Definition stoppedMessage : string := "All instances stopped." ++ nl.

(** The texts printed in a stretch of the log other than the shutdown
    notice, in order: what the main goroutine printed. *)
Fixpoint mainPrinted (l : list Event) : list string :=
  match l with
  | [] => []
  | Printed text :: rest =>
      if String.eqb text shutdownNotice then mainPrinted rest
      else text :: mainPrinted rest
  | CtxCancelled :: rest => mainPrinted rest
  end.

(** How many times the listener is scheduled among the events. *)
Fixpoint listenerSteps (evs : list AsyncEvent) : nat :=
  match evs with
  | [] => O
  | Listener :: rest => S (listenerSteps rest)
  | Deliver _ :: rest => listenerSteps rest
  end.

(** How far the listener has come. *)
Definition rank (at_ : BridgePC) : nat :=
  match at_ with
  | AtReceive => 0
  | AtPrintln => 1
  | AtCancel => 2
  | Exited => 3
  end.

(** A listener still at its receive has a signal waiting in the channel. *)
Definition pending (c : Conc) : Prop :=
  pc c = AtReceive -> sigChan c <> [].

(** What stands before a name joined to a directory: nothing for the empty
    directory and for one that cleans to [.], the root for the root, and
    the cleaned directory with a separator otherwise. *)
Definition childPrefix (dir : string) : string :=
  if String.eqb dir "" then ""
  else if String.eqb (Filepath.Clean dir) "." then ""
  else if String.eqb (Filepath.Clean dir) "/" then "/"
  else Filepath.Clean dir ++ "/".

(** The error of line 127 for instance [i]. *)
Definition failure (i : Z) (cause : error) : error :=
  Errorf_w ("failed to create config for instance " ++ sprintf_d i ++ ": ")
    cause.

(** An element [Clean] keeps: not empty and not [.] (and, among the
    elements it writes, [..] only at the front). *)
Definition kept (e : bytes) : Prop := e <> [] /\ Filepath.is_dot e = false.

End Vocabulary.

(** ** A host where one instance cannot be configured *)

Module Scenario.

Import RunMulti.

(** The host of [Demo], except that [LoadOrCreate] records the data
    directory it sets up and fails for the one named. *)
Definition failingAt (dir : string)
  : Externals Z (list string) (Spec.InstanceConfig Z)
      (list (Spec.InstanceConfig Z)) :=
  {| float64_eqb := Z.eqb;
     fmt_Sprintf_0f := sprintf_d;
     config_UnlimitedBandwidth := -1;
     config_HasEmbeddedConfig := false;
     config_LoadOrCreate := fun o h =>
       if String.eqb (DataDir o) dir
       then (inl (errorString "key file unreadable"), h)
       else (inr (Spec.build o), DataDir o :: h);
     conduit_NewMultiService := fun cfgs h => (inr cfgs, h);
     conduit_Run := fun _ _ h => (None, h);
     cmd_GetDataDir := "/tmp/x";
     cmd_Verbosity := 0;
     os_Stat_IsNotExist := fun p h => negb (existsb (String.eqb p) h);
     os_MkdirAll := fun p _ h => (None, p :: h) |}.

(** A signal while the service runs, handled before it returns. *)
Definition handled : Schedule :=
  {| beforeRun := [Listener];
     duringRun := [Deliver SIGTERM; Listener; Deliver SIGINT; Listener;
                   Listener];
     afterRun := [] |}.

End Scenario.

(** ** Vocabulary for the log *)

Module LogVocabulary.

Import RunMulti Vocabulary.

(** The log of [w] is [l0] and some events after it, among which the main
    goroutine printed [texts]. *)
Definition printedSince {Host : Type} (l0 : list Event) (texts : list string)
    (w : World Host) : Prop :=
  exists added, log w = (l0 ++ added)%list /\ mainPrinted added = texts.

End LogVocabulary.

(** ** Configuration from a resolved source *)

Module Resolved.

Import RunMulti.

Section Resolved.

Context {float64 Host Config MultiService : Type}.
Variable E : Externals float64 Host Config MultiService.
Variable F : Flags float64.


End Resolved.

End Resolved.

(** ** A host with files and directories *)

Module Posix.

Import RunMulti.

(** The errors of [os.Stat] met here: no such file or directory, and a
    path that goes through something that is not a directory. *)
Inductive Errno : Type := ENOENT | ENOTDIR.

(** [os.IsNotExist]: of these, it holds of [ENOENT] alone. *)
Definition IsNotExist (err : option Errno) : bool :=
  match err with
  | Some ENOENT => true
  | _ => false
  end.

(** [os.Stat] on a host that is the list of its regular files: a file of
    the list is found; a path that goes on after one of them, as if the
    file was a directory, is refused with [ENOTDIR]; any other path with
    [ENOENT]. *)
Definition Stat (path : string) (files : list string) : option Errno :=
  if existsb (String.eqb path) files then None
  else if existsb (fun f => String.prefix (f ++ "/") path) files
  then Some ENOTDIR
  else Some ENOENT.

(** The host of [Demo] with that [os.Stat], a builder that records the data
    directory it sets up, and a service that stops by itself without
    error. *)
Definition externals
  : Externals Z (list string) (Spec.InstanceConfig Z)
      (list (Spec.InstanceConfig Z)) :=
  {| float64_eqb := Z.eqb;
     fmt_Sprintf_0f := sprintf_d;
     config_UnlimitedBandwidth := -1;
     config_HasEmbeddedConfig := false;
     config_LoadOrCreate := fun o h => (inr (Spec.build o), DataDir o :: h);
     conduit_NewMultiService := fun cfgs h => (inr cfgs, h);
     conduit_Run := fun _ _ h => (None, h);
     cmd_GetDataDir := "/tmp/x";
     cmd_Verbosity := 0;
     os_Stat_IsNotExist := fun p h => IsNotExist (Stat p h);
     os_MkdirAll := fun p _ h => (None, p :: h) |}.

End Posix.

(** * Properties *)

(** ** Strings *)

Lemma str_b (s : string) : str (b s) = s.
Proof. apply string_of_list_ascii_of_string. Qed.

Lemma b_str (l : bytes) : b (str l) = l.
Proof. apply list_ascii_of_string_of_list_ascii. Qed.

Lemma b_inj (s t : string) : b s = b t -> s = t.
Proof. intros H. rewrite <- (str_b s), <- (str_b t). now rewrite H. Qed.

Lemma b_app (s t : string) : b (s ++ t) = (b s ++ b t)%list.
Proof. induction s as [|c s IH]; simpl; [reflexivity | now rewrite IH]. Qed.

Lemma b_length (s : string) : List.length (b s) = String.length s.
Proof. induction s as [|c s IH]; simpl; [reflexivity | now rewrite IH]. Qed.

Lemma str_app (l m : bytes) : str (l ++ m)%list = str l ++ str m.
Proof. apply b_inj. now rewrite b_app, !b_str. Qed.

Lemma sprintf_d_inj (i j : Z) : sprintf_d i = sprintf_d j -> i = j.
Proof.
  unfold sprintf_d. intros H.
  apply DecimalZ.to_int_inj.
  assert (Hs : Some (Z.to_int i) = Some (Z.to_int j)).
  { rewrite <- (NilEmpty.isi (Z.to_int i)), <- (NilEmpty.isi (Z.to_int j)).
    now rewrite H. }
  now inversion Hs.
Qed.

(** ** Paths *)

Module FilepathFacts.

Import Filepath.
Local Open Scope list_scope.


Lemma nosep_app (l m : bytes) : nosep l -> nosep m -> nosep (l ++ m)%list.
Proof. intros Hl Hm. apply Forall_app. now split. Qed.

Lemma elements_nosep (q : bytes) : nosep q -> elements q = [q].
Proof.
  induction 1 as [|c q Hc _ IH]; simpl; [reflexivity|].
  now rewrite Hc, IH.
Qed.

(** Bytes appended to a path without a separator among them extend its last
    element and leave the elements before it alone. *)
Lemma elements_snoc (p : bytes) :
  exists init last,
    elements p = (init ++ [last])%list /\
    forall q, nosep q -> elements (p ++ q) = (init ++ [last ++ q])%list.
Proof.
  induction p as [|c p (init & last & Hp & Hq)].
  - exists [], []. split; [reflexivity|].
    intros q Hn. simpl. now apply elements_nosep.
  - simpl. destruct (IsPathSeparator c).
    + exists ([] :: init), last. split.
      * now rewrite Hp.
      * intros q Hn. now rewrite (Hq q Hn).
    + destruct init as [|e0 init].
      * exists [], (c :: last). split.
        -- now rewrite Hp.
        -- intros q Hn. now rewrite (Hq q Hn).
      * exists ((c :: e0) :: init), last. split.
        -- now rewrite Hp.
        -- intros q Hn. now rewrite (Hq q Hn).
Qed.

(** An element of three bytes or more is neither empty, nor [.], nor [..]:
    [Clean] appends it to the buffer. *)
Lemma clean_step_long (rooted : bool) (out : list bytes) (e : bytes) :
  (3 <= List.length e)%nat -> clean_step rooted out e = e :: out.
Proof.
  destruct e as [|c1 [|c2 [|c3 e]]]; simpl; intros H; try lia.
  reflexivity.
Qed.

Lemma join_elements_snoc (es : list bytes) (e : bytes) :
  join_elements (es ++ [e]) = (join_prefix es ++ e)%list.
Proof.
  induction es as [|e0 es IH]; [reflexivity|].
  change ((e0 :: es) ++ [e])%list with (e0 :: (es ++ [e]))%list.
  simpl join_prefix. rewrite <- app_assoc. simpl.
  rewrite <- IH. destruct (es ++ [e])%list eqn:E; [|reflexivity].
  now destruct es.
Qed.

Lemma is_rooted_app (p q r : bytes) :
  p <> [] -> is_rooted (p ++ q)%list = is_rooted (p ++ r)%list.
Proof. destruct p; [congruence | reflexivity]. Qed.

(** A path that ends in [tag ++ r], where neither holds a separator and
    [tag] has at least three bytes, is cleaned to a string that ends in
    [tag ++ r], and what stands before does not depend on [r]. *)
Lemma clean_bytes_tagged (x tag : bytes) :
  nosep tag -> (3 <= List.length tag)%nat ->
  exists pre, forall r, nosep r ->
    clean_bytes (x ++ tag ++ r)%list = (pre ++ tag ++ r)%list.
Proof.
  intros Htag Hlen.
  destruct (elements_snoc x) as (init & last & _ & Hq).
  set (ro := is_rooted (x ++ tag ++ [])%list).
  set (out := fold_left (clean_step ro) init []).
  exists ((if ro then [Separator] else []) ++ join_prefix (rev out) ++ last)%list.
  intros r Hr. unfold clean_bytes.
  assert (Hro : is_rooted (x ++ tag ++ r)%list = ro).
  { unfold ro. rewrite !app_assoc. apply is_rooted_app.
    destruct tag; [simpl in Hlen; lia|]. now destruct x. }
  rewrite Hro, (Hq (tag ++ r)%list) by now apply nosep_app.
  rewrite fold_left_app. simpl fold_left. fold out.
  rewrite clean_step_long by (rewrite !length_app; lia).
  simpl rev. rewrite join_elements_snoc.
  destruct ro; simpl.
  - now rewrite <- !app_assoc.
  - destruct (rev out) as [|o os]; simpl; now rewrite <- ?app_assoc.
Qed.

Lemma nosep_ext_scan (before seen : bytes) :
  nosep seen -> nosep (ext_scan before seen).
Proof.
  revert seen. induction before as [|c more IH]; intros seen Hs; simpl.
  - constructor.
  - destruct (IsPathSeparator c) eqn:Hc; [constructor|].
    destruct (Ascii.eqb c dot).
    + now constructor.
    + apply IH. now constructor.
Qed.

(** The extension is a suffix of the path. *)
Lemma ext_scan_suffix (before seen : bytes) :
  exists pre, (rev before ++ seen = pre ++ ext_scan before seen)%list.
Proof.
  revert seen. induction before as [|c more IH]; intros seen; simpl.
  - exists seen. now rewrite app_nil_r.
  - destruct (IsPathSeparator c).
    + exists ((rev more ++ [c]) ++ seen)%list. now rewrite app_nil_r.
    + destruct (Ascii.eqb c dot).
      * exists (rev more). now rewrite <- app_assoc.
      * destruct (IH (c :: seen)) as (pre & E). exists pre.
        now rewrite <- app_assoc.
Qed.

Lemma nosep_Ext (path : string) : nosep (b (Ext path)).
Proof. unfold Ext. rewrite b_str. apply nosep_ext_scan. constructor. Qed.

Lemma Ext_suffix (path : string) :
  exists stem, path = (stem ++ Ext path)%string.
Proof.
  destruct (ext_scan_suffix (rev (b path)) []) as (pre & E).
  rewrite rev_involutive, app_nil_r in E.
  exists (str pre). apply b_inj. unfold Ext. now rewrite b_app, !b_str.
Qed.

End FilepathFacts.

Example Ext_json : Filepath.Ext "stats.json" = ".json".
Proof. reflexivity. Qed.

Example Ext_stops_at_separator : Filepath.Ext "out.d/stats" = "".
Proof. reflexivity. Qed.

(** The table of lexical cases Go's own test of [Clean] runs through on
    Unix. *)
Example Clean_table :
  Forall (fun t => Filepath.Clean (fst t) = snd t)
    [("abc", "abc");
     ("abc/def", "abc/def");
     ("a/b/c", "a/b/c");
     (".", ".");
     ("..", "..");
     ("../..", "../..");
     ("../../abc", "../../abc");
     ("/abc", "/abc");
     ("/", "/");
     ("", ".");
     ("abc/", "abc");
     ("abc/def/", "abc/def");
     ("a/b/c/", "a/b/c");
     ("./", ".");
     ("../", "..");
     ("../../", "../..");
     ("/abc/", "/abc");
     ("abc//def//ghi", "abc/def/ghi");
     ("//abc", "/abc");
     ("///abc", "/abc");
     ("//abc//", "/abc");
     ("abc//", "abc");
     ("abc/./def", "abc/def");
     ("/./abc/def", "/abc/def");
     ("abc/.", "abc");
     ("abc/def/ghi/../jkl", "abc/def/jkl");
     ("abc/def/../ghi/../jkl", "abc/jkl");
     ("abc/def/..", "abc");
     ("abc/def/../..", ".");
     ("/abc/def/../..", "/");
     ("abc/def/../../..", "..");
     ("/abc/def/../../..", "/");
     ("abc/def/../../../ghi/jkl/../../../mno", "../../mno");
     ("/../abc", "/abc");
     ("abc/./../def", "def");
     ("abc//./../def", "def");
     ("abc/../../././../def", "../../def")].
Proof. repeat constructor. Qed.

Example Join_examples :
  Filepath.Join "/tmp/x" "instance-0" = "/tmp/x/instance-0" /\
  Filepath.Join "" "instance-0" = "instance-0" /\
  Filepath.Join "data/" "stats-instance-3.json" = "data/stats-instance-3.json".
Proof. repeat split; reflexivity. Qed.


Example sprintf_d_examples :
  sprintf_d 0 = "0" /\ sprintf_d 31 = "31" /\ sprintf_d (-7) = "-7".
Proof. repeat split; reflexivity. Qed.

Example demo_runs :
  fst (RunMulti.runMulti Demo.externals Demo.flags Demo.quiet Demo.world)
  = Some (Errorf_w "multi-instance service error: "
            (errorString "broker unreachable")) /\
  fst (RunMulti.runMulti Demo.externals Demo.flags Demo.interruptedTwice
         Demo.world) = None /\
  RunMulti.log (snd (RunMulti.runMulti Demo.externals Demo.flags
                       Demo.interruptedTwice Demo.world))
  = [RunMulti.Printed
       "Starting 4 Psiphon Conduit instances (Max Clients/instance: 50, Bandwidth/instance: 40 Mbps)
";
     RunMulti.Printed RunMulti.shutdownNotice;
     RunMulti.CtxCancelled;
     RunMulti.Printed "All instances stopped.
"].
Proof. repeat split; reflexivity. Qed.

(** ** The paths of an instance *)

Module InstancePaths.

Import Filepath FilepathFacts RunMulti.

Lemma append_cancel_l (s t u : string) : s ++ t = s ++ u -> t = u.
Proof. induction s as [|c s IH]; simpl; intros H; [assumption|]. inversion H. auto. Qed.

Lemma append_cancel_r (s t u : string) : t ++ s = u ++ s -> t = u.
Proof.
  intros H. apply b_inj. apply (f_equal b) in H. rewrite !b_app in H.
  now apply app_inv_tail in H.
Qed.

Lemma append_assoc (s t u : string) : (s ++ t) ++ u = s ++ t ++ u.
Proof. induction s as [|c s IH]; simpl; [reflexivity | now rewrite IH]. Qed.

Lemma length_append (s t : string) :
  String.length (s ++ t) = (String.length s + String.length t)%nat.
Proof. induction s as [|c s IH]; simpl; [reflexivity | now rewrite IH]. Qed.

Lemma substring_prefix (s t : string) :
  substring 0 (String.length s) (s ++ t) = s.
Proof.
  induction s as [|c s IH]; simpl.
  - now destruct t.
  - now rewrite IH.
Qed.

(** The slice [pattern[:len(pattern)-len(ext)]] is what stands before the
    extension. *)
Lemma stem_ext (pattern : string) :
  let ext := Ext pattern in
  substring 0 (String.length pattern - String.length ext) pattern ++ ext
  = pattern.
Proof.
  intros ext. destruct (Ext_suffix pattern) as (stem & Hs).
  fold ext in Hs. rewrite Hs at 1 2.
  rewrite length_append, Nat.add_sub, substring_prefix. now rewrite <- Hs.
Qed.

Lemma nosep_uint (d : Decimal.uint) : nosep (b (NilEmpty.string_of_uint d)).
Proof. induction d; simpl; constructor; auto. Qed.

Lemma nosep_sprintf_d (i : Z) : nosep (b (sprintf_d i)).
Proof.
  unfold sprintf_d. destruct (Z.to_int i); simpl.
  - apply nosep_uint.
  - constructor; [reflexivity | apply nosep_uint].
Qed.

Lemma Join_nonempty_name (name : string) :
  name <> "" -> Join "" name = Clean name.
Proof. destruct name; [congruence | reflexivity]. Qed.

(** A name that ends in [tag ++ r], both free of separators and [tag] of
    three bytes or more, is joined to a path that ends in [tag ++ r]; what
    stands before does not depend on [r]. *)
Lemma Join_tagged (dir stem tag : string) :
  nosep (b tag) -> (3 <= String.length tag)%nat ->
  exists pre, forall r, nosep (b r) ->
    Join dir (stem ++ tag ++ r) = pre ++ tag ++ r.
Proof.
  intros Htag Hlen. rewrite <- b_length in Hlen.
  assert (Hne : forall r, stem ++ tag ++ r <> "").
  { intros r H. apply (f_equal String.length) in H.
    rewrite !length_append, <- (b_length tag) in H. simpl in H. lia. }
  destruct dir as [|c dir].
  - destruct (clean_bytes_tagged (b stem) (b tag) Htag Hlen) as (pre & Hpre).
    exists (str pre). intros r Hr.
    rewrite Join_nonempty_name by apply Hne.
    unfold Clean. rewrite !b_app, (Hpre (b r) Hr), !str_app, !str_b.
    reflexivity.
  - destruct (clean_bytes_tagged (b (String c dir ++ "/" ++ stem)) (b tag)
                Htag Hlen) as (pre & Hpre).
    exists (str pre). intros r Hr.
    change (Join (String c dir) (stem ++ tag ++ r))
      with (Clean (String c dir ++ "/" ++ stem ++ tag ++ r)).
    unfold Clean.
    replace (b (String c dir ++ "/" ++ stem ++ tag ++ r))
      with (b (String c dir ++ "/" ++ stem) ++ b tag ++ b r)%list
      by (now rewrite !b_app, <- !app_assoc).
    rewrite (Hpre (b r) Hr), !str_app, !str_b. reflexivity.
Qed.

Lemma nosep_instance : nosep (b "-instance-").
Proof. repeat constructor. Qed.

Lemma nosep_instance0 : nosep (b "instance-").
Proof. repeat constructor. Qed.

(** The data directory of an instance: a fixed prefix, then
    [instance-<i>]. *)
Lemma instanceDataDir_shape (baseDataDir : string) :
  exists pre, forall i,
    instanceDataDir baseDataDir i = pre ++ "instance-" ++ sprintf_d i.
Proof.
  destruct (Join_tagged baseDataDir "" "instance-" nosep_instance0)
    as (pre & H); [simpl; lia|].
  exists pre. intros i. unfold instanceDataDir.
  apply (H (sprintf_d i)), nosep_sprintf_d.
Qed.

(** The stats file of an instance under a non-empty pattern: a fixed
    prefix, then [-instance-<i>] and the extension. *)
Lemma statsFilePath_shape (baseDataDir pattern : string) :
  pattern <> "" ->
  exists pre, forall i,
    statsFilePath baseDataDir pattern i
    = pre ++ "-instance-" ++ sprintf_d i ++ Ext pattern.
Proof.
  intros Hne.
  set (ext := Ext pattern).
  set (stem := substring 0 (String.length pattern - String.length ext) pattern).
  destruct (Join_tagged baseDataDir stem "-instance-" nosep_instance)
    as (pre & H); [simpl; lia|].
  exists pre. intros i. unfold statsFilePath.
  destruct (String.eqb_spec pattern ""); [congruence|].
  fold ext. fold stem. apply H.
  rewrite b_app. apply nosep_app; [apply nosep_sprintf_d | apply nosep_Ext].
Qed.

Lemma instanceDataDir_inj (baseDataDir : string) (i j : Z) :
  instanceDataDir baseDataDir i = instanceDataDir baseDataDir j -> i = j.
Proof.
  destruct (instanceDataDir_shape baseDataDir) as (pre & H).
  rewrite !H. intros E.
  apply append_cancel_l, append_cancel_l in E. now apply sprintf_d_inj.
Qed.

Lemma statsFilePath_inj (baseDataDir pattern : string) (i j : Z) :
  pattern <> "" ->
  statsFilePath baseDataDir pattern i = statsFilePath baseDataDir pattern j ->
  i = j.
Proof.
  intros Hne. destruct (statsFilePath_shape baseDataDir pattern Hne) as (pre & H).
  rewrite !H. intros E.
  apply append_cancel_l, append_cancel_l, append_cancel_r in E.
  now apply sprintf_d_inj.
Qed.

Lemma statsFilePath_nonempty (baseDataDir pattern : string) (i : Z) :
  pattern <> "" -> statsFilePath baseDataDir pattern i <> "".
Proof.
  intros Hne. destruct (statsFilePath_shape baseDataDir pattern Hne) as (pre & H).
  rewrite H. intros E. apply (f_equal String.length) in E.
  rewrite !length_append in E. simpl in E. lia.
Qed.

End InstancePaths.

(** ** The extension of a pattern *)

Module ExtFacts.

Import Filepath FilepathFacts.
Local Open Scope list_scope.

Lemma elements_nosep_all (p : bytes) : Forall nosep (elements p).
Proof.
  induction p as [|c p IH]; simpl.
  - repeat constructor.
  - destruct (IsPathSeparator c) eqn:Hc.
    + constructor; [constructor | assumption].
    + destruct (elements p) as [|e es]; [repeat constructor; assumption|].
      inversion IH; subst. constructor; [now constructor | assumption].
Qed.

Lemma elements_nonempty (p : bytes) : elements p <> [].
Proof.
  destruct p as [|c p]; simpl; [discriminate|].
  destruct (IsPathSeparator c); [discriminate|].
  destruct (elements p); discriminate.
Qed.

(** Joining the elements of a path gives the path back. *)
Lemma join_elements_elements (p : bytes) : join_elements (elements p) = p.
Proof.
  induction p as [|c p IH]; [reflexivity|]. simpl.
  destruct (IsPathSeparator c) eqn:Hc.
  - apply Ascii.eqb_eq in Hc. subst c.
    pose proof (elements_nonempty p) as Hne.
    simpl. destruct (elements p); [congruence|]. now rewrite IH.
  - destruct (elements p) as [|e es] eqn:Ee.
    + now destruct (elements_nonempty p).
    + rewrite <- IH. now destruct es.
Qed.

Lemma join_prefix_rev (es : list bytes) : at_separator (rev (join_prefix es)).
Proof.
  induction es as [|e es IH]; simpl; [exact I|].
  rewrite rev_app_distr. simpl.
  destruct (rev (join_prefix es)) as [|c r]; simpl in *.
  - reflexivity.
  - assumption.
Qed.

(** The loop of [Ext] and the search for the last dot agree on an element
    that ends where the path ends. *)
Lemma ext_scan_final (l seen rest : bytes) :
  nosep l -> at_separator rest ->
  ext_scan (l ++ rest) seen
  = match Spec.lastDot_scan l seen with
    | Some (_, e) => e
    | None => []
    end.
Proof.
  intros Hl Hrest. revert seen.
  induction Hl as [|c l Hc _ IH]; intros seen; simpl.
  - destruct rest as [|c rest]; [reflexivity|].
    simpl in Hrest. simpl. now rewrite Hrest.
  - rewrite Hc. destruct (Ascii.eqb c dot); [reflexivity | apply IH].
Qed.

(** [filepath.Ext] splits at the last dot of the final element of the
    path. *)
Lemma Ext_finalElement (path : string) :
  Ext path = snd (Spec.splitLastDot (Spec.finalElement path)).
Proof.
  unfold Ext, Spec.splitLastDot, Spec.finalElement. rewrite b_str.
  destruct (elements_snoc (b path)) as (init & lst & Hp & _).
  pose proof (join_elements_elements (b path)) as Hj.
  pose proof (elements_nosep_all (b path)) as Hn.
  rewrite Hp in Hj, Hn |- *. rewrite join_elements_snoc in Hj.
  rewrite last_last, <- Hj, rev_app_distr.
  apply Forall_app in Hn. destruct Hn as [_ Hn]. inversion Hn; subst.
  rewrite (ext_scan_final (rev lst) [] (rev (join_prefix init)))
    by (try apply Forall_rev; try apply join_prefix_rev; assumption).
  destruct (Spec.lastDot_scan (rev lst) []) as [[s e]|]; reflexivity.
Qed.

End ExtFacts.

(** ** Claims on the per-instance paths *)

(** C5, as the specification words it, fails: the pattern [out.d/stats] has
    its last dot before a separator.  The program finds no extension there
    and puts the instance mark at the end, while a split at the last dot
    would put it before [.d/stats]. *)
Lemma statsFilePath_last_dot_counterexample :
  RunMulti.statsFilePath "/tmp/x" "out.d/stats" 0
    = "/tmp/x/out.d/stats-instance-0" /\
  Spec.statsFilePath_spec "/tmp/x" "out.d/stats" 0
    = "/tmp/x/out-instance-0.d/stats" /\
  RunMulti.statsFilePath "/tmp/x" "out.d/stats" 0
    <> Spec.statsFilePath_spec "/tmp/x" "out.d/stats" 0.
Proof. repeat split; try reflexivity. vm_compute. discriminate. Qed.

(** C5, amended: with an empty pattern the stats file path is empty; with a
    non-empty pattern it is the base directory joined with
    [<stem>-instance-<i><ext>], where [ext] starts at the last dot of the
    final path element of the pattern (and is empty when that element has
    no dot) and [stem] is the rest of the pattern.  With four instances,
    pattern [stats.json] and base directory [/tmp/x], instance [i] has data
    directory [/tmp/x/instance-i] and stats file
    [/tmp/x/stats-instance-i.json]. *)
Theorem statsFilePath_split (baseDataDir pattern : string) (i : Z) :
  (pattern = "" -> RunMulti.statsFilePath baseDataDir pattern i = "") /\
  (pattern <> "" ->
   let ext := snd (Spec.splitLastDot (Spec.finalElement pattern)) in
   exists stem,
     pattern = stem ++ ext /\
     RunMulti.statsFilePath baseDataDir pattern i
     = Filepath.Join baseDataDir
         (stem ++ "-instance-" ++ sprintf_d i ++ ext)) /\
  (0 <= i < 4 ->
   let o := RunMulti.instanceOptions Demo.externals Demo.flags "/tmp/x"
              "./config.json" false i in
   RunMulti.DataDir o = "/tmp/x/instance-" ++ sprintf_d i /\
   RunMulti.StatsFile o = "/tmp/x/stats-instance-" ++ sprintf_d i ++ ".json").
Proof.
  split; [|split].
  - intros ->. reflexivity.
  - intros Hne ext.
    exists (substring 0 (String.length pattern - String.length ext) pattern).
    unfold ext. rewrite <- ExtFacts.Ext_finalElement. split.
    + symmetry. apply InstancePaths.stem_ext.
    + unfold RunMulti.statsFilePath.
      destruct (String.eqb_spec pattern ""); [congruence | reflexivity].
  - intros Hi.
    assert (H : i = 0 \/ i = 1 \/ i = 2 \/ i = 3) by lia.
    destruct H as [-> | [-> | [-> | ->]]]; split; reflexivity.
Qed.

Lemma statsFilePath_split_witness :
  RunMulti.statsFilePath "/tmp/x" "" 2 = "" /\
  (exists stem,
     "stats.tar.gz" = stem ++ ".gz" /\
     RunMulti.statsFilePath "/tmp/x" "stats.tar.gz" 2
     = Filepath.Join "/tmp/x" (stem ++ "-instance-" ++ "2" ++ ".gz")) /\
  RunMulti.DataDir (RunMulti.instanceOptions Demo.externals Demo.flags
                      "/tmp/x" "./config.json" false 2)
  = "/tmp/x/instance-2" /\
  RunMulti.StatsFile (RunMulti.instanceOptions Demo.externals Demo.flags
                        "/tmp/x" "./config.json" false 2)
  = "/tmp/x/stats-instance-2.json".
Proof.
  split; [|split].
  - apply (proj1 (statsFilePath_split "/tmp/x" "" 2)). reflexivity.
  - apply (proj1 (proj2 (statsFilePath_split "/tmp/x" "stats.tar.gz" 2))).
    discriminate.
  - apply (proj2 (proj2 (statsFilePath_split "/tmp/x" "stats.json" 2))). lia.
Defined.

Lemma NoDup_map_injective {A B : Type} (f : A -> B) (l : list A) :
  (forall x y, f x = f y -> x = y) -> NoDup l -> NoDup (map f l).
Proof.
  intros Hf. induction 1 as [|x l Hx _ IH]; simpl; constructor; [|assumption].
  intros Hin. apply in_map_iff in Hin. destruct Hin as (y & Hy & Hin).
  apply Hf in Hy. now subst y.
Qed.

(** ** Claims on the flag [--stats-file] *)

(** C10, as stated, fails: [--stats-file=] is a use of the flag, and it
    leaves the pattern empty as well. *)
Lemma empty_value_leaves_pattern_empty :
  Pflag.parsed Pflag.statsFile (Pflag.Assigned "") = Some "" /\
  Pflag.Assigned "" <> Pflag.Omitted.
Proof. split; [reflexivity | discriminate]. Qed.

(** C10, amended: [--stats-file] without a value selects the pattern
    [stats.json], whatever follows on the command line, and every instance
    then has a non-empty stats file path; without the flag the pattern is
    empty and no instance has a stats file; the pattern is empty exactly
    when the flag is omitted or given the empty value. *)
Theorem stats_file_flag :
  (forall following,
     Pflag.parsed Pflag.statsFile (Pflag.Bare following) = Some "stats.json") /\
  (forall baseDataDir i,
     RunMulti.statsFilePath baseDataDir "stats.json" i <> "") /\
  Pflag.parsed Pflag.statsFile Pflag.Omitted = Some "" /\
  (forall baseDataDir i, RunMulti.statsFilePath baseDataDir "" i = "") /\
  (forall u,
     Pflag.parsed Pflag.statsFile u = Some "" <->
     u = Pflag.Omitted \/ u = Pflag.Assigned "").
Proof.
  repeat split.
  - intros. apply InstancePaths.statsFilePath_nonempty. discriminate.
  - destruct u as [|following|value]; simpl; intros H.
    + now left.
    + discriminate.
    + right. now inversion H.
  - intros [-> | ->]; reflexivity.
Qed.

(** ** The shutdown bridge *)

Module BridgeFacts.

Import RunMulti.

Section Bridge.

Context {float64 Host Config MultiService : Type}.
Variable E : Externals float64 Host Config MultiService.
Variable F : Flags float64.

Lemma notices_snoc (l : list Event) (ev : Event) :
  notices (l ++ [ev])
  = (notices l + if Event_eq_dec ev (Printed shutdownNotice) then 1 else 0)%nat.
Proof.
  unfold notices. rewrite count_occ_app. simpl.
  destruct (Event_eq_dec ev (Printed shutdownNotice)); reflexivity.
Qed.

Lemma cancellations_snoc (l : list Event) (ev : Event) :
  cancellations (l ++ [ev])
  = (cancellations l + if Event_eq_dec ev CtxCancelled then 1 else 0)%nat.
Proof.
  unfold cancellations. rewrite count_occ_app. simpl.
  destruct (Event_eq_dec ev CtxCancelled); reflexivity.
Qed.

Lemma since_emit (l0 : list Event) (c : Conc) (w : World Host) (added : list Event)
    (ev : Event) :
  log w = (l0 ++ added)%list ->
  log (emit ev w) = (l0 ++ (added ++ [ev]))%list.
Proof. intros H. simpl. now rewrite H, app_assoc. Qed.

Lemma since_async (l0 : list Event) (s : Conc * World Host) (ev : AsyncEvent) :
  since l0 s -> since l0 (async s ev).
Proof.
  destruct s as [c w]. intros (added & Hlog & Hp). simpl in Hlog, Hp.
  destruct ev as [sig|]; simpl.
  - destruct (List.length (sigChan c) <? 1)%nat; exists added; split; auto.
  - unfold progress in Hp. destruct (pc c) eqn:Hpc.
    + destruct (sigChan c); exists added; (split; [assumption|]);
        unfold progress; simpl; rewrite ?Hpc; assumption.
    + exists (added ++ [Printed shutdownNotice])%list. split.
      * now apply since_emit.
      * unfold progress. simpl.
        rewrite notices_snoc, cancellations_snoc.
        destruct (Event_eq_dec (Printed shutdownNotice) (Printed shutdownNotice));
          [|congruence].
        destruct (Event_eq_dec (Printed shutdownNotice) CtxCancelled);
          [discriminate|].
        destruct Hp as (-> & -> & ->). auto.
    + destruct Hp as (Hn & Hc & Hd). simpl. rewrite Hd.
      exists (added ++ [CtxCancelled])%list. split.
      * now apply since_emit.
      * unfold progress. simpl.
        rewrite notices_snoc, cancellations_snoc.
        destruct (Event_eq_dec CtxCancelled (Printed shutdownNotice));
          [discriminate|].
        destruct (Event_eq_dec CtxCancelled CtxCancelled); [|congruence].
        rewrite Hn, Hc. auto.
    + exists added. split; [assumption|].
      unfold progress. simpl. now rewrite Hpc.
Qed.

Lemma since_asyncs (l0 : list Event) (evs : list AsyncEvent)
    (s : Conc * World Host) :
  since l0 s -> since l0 (asyncs evs s).
Proof.
  revert s. unfold asyncs.
  induction evs as [|ev evs IH]; intros s Hs; simpl; [assumption|].
  apply IH. now apply since_async.
Qed.

(** Text the main goroutine prints is not the shutdown notice. *)
Lemma since_print (l0 : list Event) (c : Conc) (w : World Host) (text : string) :
  text <> shutdownNotice ->
  since l0 (c, w) -> since l0 (c, emit (Printed text) w).
Proof.
  intros Hne (added & Hlog & Hp). simpl in Hlog, Hp.
  exists (added ++ [Printed text])%list. split.
  - now apply since_emit.
  - unfold progress in *. simpl.
    rewrite notices_snoc, cancellations_snoc.
    destruct (Event_eq_dec (Printed text) (Printed shutdownNotice)) as [e|];
      [inversion e; congruence|].
    destruct (Event_eq_dec (Printed text) CtxCancelled); [discriminate|].
    rewrite !Nat.add_0_r. exact Hp.
Qed.

Lemma since_host (l0 : list Event) (c : Conc) (w : World Host) (h : Host) :
  since l0 (c, w) -> since l0 (c, {| host := h; log := log w |}).
Proof. intros (added & Hlog & Hp). exists added. split; assumption. Qed.

(** The deferred [cancel()] closes the context only if the listener has
    not. *)
Lemma since_cancel (l0 : list Event) (s : Conc * World Host) :
  since l0 s ->
  exists added,
    log (snd (cancel s)) = (l0 ++ added)%list /\
    (notices added <= 1)%nat /\ (cancellations added <= 1)%nat.
Proof.
  destruct s as [c w]. intros (added & Hlog & Hp). simpl in Hlog, Hp.
  unfold cancel. destruct (ctxDone c) eqn:Hd.
  - exists added. split; [assumption|].
    unfold progress in Hp. destruct (pc c); lia.
  - exists (added ++ [CtxCancelled])%list. split.
    + now apply since_emit.
    + rewrite notices_snoc, cancellations_snoc.
      destruct (Event_eq_dec CtxCancelled (Printed shutdownNotice));
        [discriminate|].
      destruct (Event_eq_dec CtxCancelled CtxCancelled); [|congruence].
      unfold progress in Hp. destruct (pc c); try lia.
      destruct Hp as (_ & _ & Hp). congruence.
Qed.

Lemma startupMessage_not_notice : startupMessage E F <> shutdownNotice.
Proof. unfold startupMessage, shutdownNotice. simpl. discriminate. Qed.

Lemma stopped_not_notice : "All instances stopped." ++ nl <> shutdownNotice.
Proof. discriminate. Qed.

Lemma since_fresh (w : World Host) :
  since (log w) ({| sigChan := []; pc := AtReceive; ctxDone := false |}, w).
Proof.
  exists []. split; [now rewrite app_nil_r|].
  unfold progress. simpl. auto.
Qed.

Lemma since_untilRunReturns (sched : Schedule) (w : World Host) :
  since (log w) (untilRunReturns E F sched w).
Proof.
  unfold untilRunReturns.
  pose proof (since_asyncs (log w) (beforeRun sched) _ (since_fresh w)) as H.
  destruct (asyncs (beforeRun sched) _) as [c1 w1].
  apply since_asyncs, since_print; [apply startupMessage_not_notice | exact H].
Qed.

(** Running adds at most one shutdown notice and one cancellation to the
    log. *)
Lemma serve_once (multiService : MultiService) (sched : Schedule)
    (w : World Host) :
  exists added,
    log (snd (serve E F multiService sched w)) = (log w ++ added)%list /\
    (notices added <= 1)%nat /\ (cancellations added <= 1)%nat.
Proof.
  unfold serve.
  pose proof (since_untilRunReturns sched w) as H.
  destruct (untilRunReturns E F sched w) as [c w1].
  destruct (conduit_Run E multiService (ctxDone c) (host w1)) as [err h].
  apply (since_host _ _ _ h) in H.
  assert (Hfinish :
    exists added,
      log (snd (let (c3, w3) :=
                  asyncs (afterRun sched) (c, {| host := h; log := log w1 |}) in
                (@None error,
                 snd (cancel (c3, emit (Printed ("All instances stopped." ++ nl))
                                    w3)))))
      = (log w ++ added)%list /\
      (notices added <= 1)%nat /\ (cancellations added <= 1)%nat).
  { pose proof (since_asyncs (log w) (afterRun sched) _ H) as H3.
    destruct (asyncs (afterRun sched) _) as [c3 w3].
    apply since_cancel, since_print; [apply stopped_not_notice | exact H3]. }
  destruct err as [e|]; [|exact Hfinish].
  destruct (negb (ctxDone c)); [|exact Hfinish].
  now apply since_cancel.
Qed.

(** Configuration writes nothing to the log. *)
Lemma setup_log (w : World Host) : log (snd (setup E F w)) = log w.
Proof.
  unfold setup.
  destruct ((multiInstances F <? 1) || (multiInstances F >? 32)); [reflexivity|].
  destruct (configSource E F (host w)) as [err|[p u]]; [reflexivity|].
  destruct (os_MkdirAll E (cmd_GetDataDir E) 448 (host w)) as [[err|] h1];
    [reflexivity|].
  destruct (instanceLoop E F (cmd_GetDataDir E) p u
              (Z.to_nat (multiInstances F)) 0 [] h1) as [[err|cfgs] h2];
    [reflexivity|].
  destruct (conduit_NewMultiService E cfgs h2) as [[err|svc] h3]; reflexivity.
Qed.

(** Without a signal the listener stays at its receive and the context
    stays open. *)
Lemma asyncs_noSignal (evs : list AsyncEvent) (c : Conc) (w : World Host) :
  noSignal evs -> sigChan c = [] -> pc c = AtReceive ->
  asyncs evs (c, w) = (c, w).
Proof.
  unfold asyncs. induction evs as [|ev evs IH]; intros Hn Hs Hp;
    [reflexivity|].
  destruct ev as [sig|].
  - exfalso. apply (Hn sig). now left.
  - simpl. rewrite Hp, Hs. apply IH; auto.
    intros sig Hin. apply (Hn sig). now right.
Qed.

Lemma untilRunReturns_noSignal (sched : Schedule) (w : World Host) :
  noSignal (beforeRun sched ++ duringRun sched) ->
  ctxDone (fst (untilRunReturns E F sched w)) = false.
Proof.
  intros Hn. unfold untilRunReturns.
  rewrite asyncs_noSignal; try reflexivity.
  - rewrite asyncs_noSignal; try reflexivity.
    intros sig Hin. apply (Hn sig), in_or_app. now right.
  - intros sig Hin. apply (Hn sig), in_or_app. now left.
Qed.

End Bridge.

End BridgeFacts.

(** ** Claims on [runMulti] *)

(** C1: once configuration has given the multi-instance service, a context
    that is cancelled when [Run] returns makes [runMulti] return [nil],
    whether [Run] returned an error or not; a context that is not, with an
    error from [Run], makes it return an error that wraps that one; and the
    context is not cancelled when no signal was delivered. *)
Theorem runMulti_result
    {float64 Host Config MultiService : Type}
    (E : RunMulti.Externals float64 Host Config MultiService)
    (F : RunMulti.Flags float64) (sched : RunMulti.Schedule)
    (w w1 : RunMulti.World Host) (multiService : MultiService) :
  RunMulti.setup E F w = (inr multiService, w1) ->
  let s := RunMulti.untilRunReturns E F sched w1 in
  let cancelled := RunMulti.ctxDone (fst s) in
  let ran :=
    RunMulti.conduit_Run E multiService cancelled (RunMulti.host (snd s)) in
  (cancelled = true -> fst (RunMulti.runMulti E F sched w) = None) /\
  (cancelled = false ->
   forall err, fst ran = Some err ->
   exists e, fst (RunMulti.runMulti E F sched w) = Some e /\
             Unwrap e = Some err) /\
  (RunMulti.noSignal (RunMulti.beforeRun sched ++ RunMulti.duringRun sched) ->
   cancelled = false).
Proof.
  intros Hsetup s cancelled ran.
  unfold RunMulti.runMulti. rewrite Hsetup. unfold RunMulti.serve.
  subst ran cancelled s.
  split; [|split].
  - destruct (RunMulti.untilRunReturns E F sched w1) as [c w2]. simpl.
    intros ->.
    destruct (RunMulti.conduit_Run E multiService true (RunMulti.host w2))
      as [[e|] h]; simpl;
      destruct (RunMulti.asyncs (RunMulti.afterRun sched) _); reflexivity.
  - destruct (RunMulti.untilRunReturns E F sched w1) as [c w2]. simpl.
    intros -> err.
    destruct (RunMulti.conduit_Run E multiService false (RunMulti.host w2))
      as [[e|] h]; simpl; intros Herr; [|discriminate].
    inversion Herr; subst. eexists. split; reflexivity.
  - apply BridgeFacts.untilRunReturns_noSignal.
Qed.

Lemma runMulti_result_witness :
  RunMulti.setup Demo.externals Demo.flags Demo.world
  = (inr (map (fun i => Spec.build
                          (RunMulti.instanceOptions Demo.externals Demo.flags
                             "/tmp/x" "./config.json" false i))
              [0; 1; 2; 3]),
     {| RunMulti.host := ["/tmp/x"; "./config.json"]; RunMulti.log := [] |}) /\
  fst (RunMulti.runMulti Demo.externals Demo.flags Demo.interruptedTwice
         Demo.world) = None /\
  exists e,
    fst (RunMulti.runMulti Demo.externals Demo.flags Demo.quiet Demo.world)
    = Some e /\
    Unwrap e = Some (errorString "broker unreachable").
Proof.
  split; [reflexivity|]. split.
  - apply (proj1 (runMulti_result Demo.externals Demo.flags
                    Demo.interruptedTwice Demo.world _ _ eq_refl)).
    reflexivity.
  - apply (proj1 (proj2 (runMulti_result Demo.externals Demo.flags Demo.quiet
                           Demo.world _ _ eq_refl)));
      reflexivity.
Defined.

(** C2: whatever signals arrive and however the listener is scheduled, one
    [runMulti] adds the shutdown notice to the log at most once and cancels
    the context at most once; the delivery of a signal by itself prints
    nothing, cancels nothing and leaves the listener where it stands; and
    once the listener has exited no event changes the log or the context. *)
Theorem shutdown_at_most_once
    {float64 Host Config MultiService : Type}
    (E : RunMulti.Externals float64 Host Config MultiService)
    (F : RunMulti.Flags float64) :
  (forall sched w,
     exists added,
       RunMulti.log (snd (RunMulti.runMulti E F sched w))
       = (RunMulti.log w ++ added)%list /\
       (RunMulti.notices added <= 1)%nat /\
       (RunMulti.cancellations added <= 1)%nat) /\
  (forall sig c (w : RunMulti.World Host),
     let s := RunMulti.async (c, w) (RunMulti.Deliver sig) in
     snd s = w /\ RunMulti.pc (fst s) = RunMulti.pc c /\
     RunMulti.ctxDone (fst s) = RunMulti.ctxDone c) /\
  (forall ev c (w : RunMulti.World Host),
     RunMulti.pc c = RunMulti.Exited ->
     let s := RunMulti.async (c, w) ev in
     snd s = w /\ RunMulti.pc (fst s) = RunMulti.Exited /\
     RunMulti.ctxDone (fst s) = RunMulti.ctxDone c).
Proof.
  split; [|split].
  - intros sched w. unfold RunMulti.runMulti.
    pose proof (BridgeFacts.setup_log E F w) as Hlog.
    destruct (RunMulti.setup E F w) as [[err|multiService] w1]; simpl in Hlog.
    + exists []. simpl. rewrite Hlog, app_nil_r. repeat split; auto.
    + rewrite <- Hlog. apply BridgeFacts.serve_once.
  - intros sig c w. simpl.
    destruct (List.length (RunMulti.sigChan c) <? 1)%nat; repeat split.
  - intros ev c w Hpc. destruct ev as [sig|]; simpl.
    + destruct (List.length (RunMulti.sigChan c) <? 1)%nat; repeat split;
        assumption.
    + rewrite Hpc. repeat split. assumption.
Qed.

Lemma shutdown_at_most_once_witness :
  let c := {| RunMulti.sigChan := [RunMulti.SIGTERM];
              RunMulti.pc := RunMulti.Exited;
              RunMulti.ctxDone := true |} in
  let s := RunMulti.async (c, Demo.world) (RunMulti.Deliver RunMulti.SIGINT) in
  RunMulti.pc c = RunMulti.Exited /\
  snd s = Demo.world /\ RunMulti.pc (fst s) = RunMulti.Exited /\
  RunMulti.ctxDone (fst s) = true.
Proof.
  split; [reflexivity|].
  apply (proj2 (proj2 (shutdown_at_most_once Demo.externals Demo.flags))
           (RunMulti.Deliver RunMulti.SIGINT)
           {| RunMulti.sigChan := [RunMulti.SIGTERM];
              RunMulti.pc := RunMulti.Exited;
              RunMulti.ctxDone := true |}
           Demo.world).
  reflexivity.
Defined.

Example interrupted_twice_once :
  let w := snd (RunMulti.runMulti Demo.externals Demo.flags
                  Demo.interruptedTwice Demo.world) in
  RunMulti.notices (RunMulti.log w) = 1%nat /\
  RunMulti.cancellations (RunMulti.log w) = 1%nat.
Proof. split; reflexivity. Qed.

(** C3: with an instance count below 1 or above 32, [runMulti] returns its
    configuration error at once and leaves the world as it found it: no
    directory made, no options built, no service created or run, nothing
    printed. *)
Theorem runMulti_rejects_count
    {float64 Host Config MultiService : Type}
    (E : RunMulti.Externals float64 Host Config MultiService)
    (F : RunMulti.Flags float64) (sched : RunMulti.Schedule)
    (w : RunMulti.World Host) :
  RunMulti.multiInstances F < 1 \/ RunMulti.multiInstances F > 32 ->
  RunMulti.runMulti E F sched w
  = (Some (errorString "instances must be between 1 and 32"), w).
Proof.
  intros H. unfold RunMulti.runMulti, RunMulti.setup.
  replace ((RunMulti.multiInstances F <? 1) || (RunMulti.multiInstances F >? 32))
    with true; [reflexivity|].
  symmetry. apply orb_true_iff. rewrite Z.ltb_lt, Z.gtb_gt. lia.
Qed.

Lemma runMulti_rejects_count_witness :
  RunMulti.runMulti Demo.externals (Demo.withInstances 0) Demo.quiet Demo.world
  = (Some (errorString "instances must be between 1 and 32"), Demo.world) /\
  RunMulti.runMulti Demo.externals (Demo.withInstances 33) Demo.quiet Demo.world
  = (Some (errorString "instances must be between 1 and 32"), Demo.world).
Proof.
  split.
  - apply (runMulti_rejects_count Demo.externals (Demo.withInstances 0)).
    left. simpl. lia.
  - apply (runMulti_rejects_count Demo.externals (Demo.withInstances 33)).
    right. simpl. lia.
Defined.




(** ** The loop over the instances *)

Module LoopFacts.

Import RunMulti.

Section Loop.

Context {float64 Host MultiService : Type}.
Variable E : Externals float64 Host (Spec.InstanceConfig float64) MultiService.
Variable F : Flags float64.
Hypothesis builder : config_LoadOrCreate E = Spec.LoadOrCreate_spec.

Lemma seq_succ_map {A : Type} (f : nat -> A) (n : nat) :
  map f (seq 1 n) = map (fun k => f (S k)) (seq 0 n).
Proof. now rewrite <- seq_shift, map_map. Qed.

(** With the builder of the specification every round of the loop succeeds
    and leaves the host alone. *)
Lemma instanceLoop_builder (baseDataDir effectiveConfigPath : string)
    (useEmbedded : bool) (todo : nat) :
  forall (i : Z) (instanceConfigs : list (Spec.InstanceConfig float64))
         (h : Host),
    instanceLoop E F baseDataDir effectiveConfigPath useEmbedded todo i
      instanceConfigs h
    = (inr (instanceConfigs
            ++ map (fun k => Spec.build
                               (instanceOptions E F baseDataDir
                                  effectiveConfigPath useEmbedded
                                  (i + Z.of_nat k)))
                   (seq 0 todo))%list, h).
Proof.
  induction todo as [|todo IH]; intros i acc h.
  - simpl. now rewrite app_nil_r.
  - cbn [instanceLoop]. rewrite builder. unfold Spec.LoadOrCreate_spec.
    rewrite IH. cbn [seq map]. rewrite seq_succ_map, <- app_assoc.
    rewrite Z.add_0_r. cbn [app]. do 4 f_equal.
    apply map_ext. intros k. do 2 f_equal. lia.
Qed.

End Loop.

End LoopFacts.

(** C7: with the builder of the specification, building the configuration
    of one instance returns a configuration and no error and leaves the host
    as it was, and the loop of [runMulti] over the instances returns one
    configuration for each index from 0 up to the count, in order, never
    takes its error exit, and leaves the host as it was. *)
Theorem build_instance_total
    {float64 Host MultiService : Type}
    (E : RunMulti.Externals float64 Host (Spec.InstanceConfig float64)
           MultiService)
    (F : RunMulti.Flags float64)
    (baseDataDir effectiveConfigPath : string) (useEmbedded : bool)
    (h : Host) :
  RunMulti.config_LoadOrCreate E = Spec.LoadOrCreate_spec ->
  (forall i,
     RunMulti.config_LoadOrCreate E
       (RunMulti.instanceOptions E F baseDataDir effectiveConfigPath
          useEmbedded i) h
     = (inr (Spec.build (RunMulti.instanceOptions E F baseDataDir
                           effectiveConfigPath useEmbedded i)), h)) /\
  RunMulti.instanceLoop E F baseDataDir effectiveConfigPath useEmbedded
    (Z.to_nat (RunMulti.multiInstances F)) 0 [] h
  = (inr (map (fun i => Spec.build
                          (RunMulti.instanceOptions E F baseDataDir
                             effectiveConfigPath useEmbedded i))
              (RunMulti.instanceIndices (RunMulti.multiInstances F))), h).
Proof.
  intros Hb. split.
  - intros i. now rewrite Hb.
  - rewrite (LoopFacts.instanceLoop_builder E F Hb).
    unfold RunMulti.instanceIndices. now rewrite map_map.
Qed.

Lemma build_instance_total_witness :
  RunMulti.instanceLoop Demo.externals Demo.flags "/tmp/x" "./config.json"
    false 4 0 [] ["/tmp/x"]
  = (inr (map (fun i => Spec.build
                          (RunMulti.instanceOptions Demo.externals Demo.flags
                             "/tmp/x" "./config.json" false i))
              [0; 1; 2; 3]), ["/tmp/x"]).
Proof.
  apply (proj2 (build_instance_total Demo.externals Demo.flags "/tmp/x"
                  "./config.json" false ["/tmp/x"] eq_refl)).
Defined.

(** ** Claims on the metric registration helpers *)

Module MetricsFacts.

Import Metrics.

Section Outcomes.

Context {GaugeOpts Func Collector Proc : Type}.
Variable P : Prometheus GaugeOpts Func Collector Proc.




End Outcomes.

(** *** The registry *)





(** What [Register] answers depends on the collector through its
    descriptor alone, and a registration refused changes nothing. *)
Lemma registerDesc_refused (valid : Desc -> bool) (c : Collector) (p p' : Proc)
    (err : RegisterError Collector) :
  registerDesc valid c p = (Some err, p') -> p' = p.
Proof.
  unfold registerDesc. destruct (negb (valid (desc c))); [congruence|].
  destruct (existsb _ _); [congruence|].
  destruct (find _ _); congruence.
Qed.


(** Registrations keep the registry consistent. *)
Lemma registerDesc_consistent (valid : Desc -> bool) (c : Collector)
    (p p' : Proc) (err : option (RegisterError Collector)) :
  registerDesc valid c p = (err, p') ->
  consistent valid (registry p) -> consistent valid (registry p').
Proof.
  unfold registerDesc. destruct (valid (desc c)) eqn:Hv; simpl;
    [|intros H; now inversion H].
  destruct (existsb _ _) eqn:He; [intros H; now inversion H|].
  destruct (find _ _) eqn:Hf; intros H; inversion H; subst; clear H;
    [trivial|].
  intros (Hnd & Hdim & Hvalid). simpl. repeat split.
  - constructor; [|assumption]. intros Hin. apply in_map_iff in Hin.
    destruct Hin as (c' & Hid & Hin).
    apply (find_none _ _ Hf) in Hin. unfold sameId in Hin.
    destruct (descId_eq_dec _ _); [discriminate | congruence].
  - assert (Hno : forall c', In c' (registry p) ->
                    fqName (desc c') = fqName (desc c) ->
                    dimOf (desc c') = dimOf (desc c)).
    { intros c' Hin Hn.
      destruct (dimOf_eq_dec (dimOf (desc c')) (dimOf (desc c))) as [e|Hne];
        [exact e|].
      exfalso. assert (Ht : existsb (fun c' => clashes c' (desc c))
                              (registry p) = true); [|congruence].
      apply existsb_exists. exists c'. split; [assumption|].
      unfold clashes. rewrite Hn, String.eqb_refl.
      now destruct (dimOf_eq_dec _ _). }
    intros c1 c2 [<- | H1] [<- | H2] Hn; auto.
    symmetry. apply Hno; auto.
  - intros c' [<- | Hin]; auto.
Qed.





End MetricsFacts.






(** * Further properties *)

(** ** The loop over the instances, for any builder *)

Module LoopAny.

Import RunMulti Vocabulary.

Section Loop.

Context {float64 Host Config MultiService : Type}.
Variable E : Externals float64 Host Config MultiService.
Variable F : Flags float64.
Variables baseDataDir effectiveConfigPath : string.
Variable useEmbedded : bool.

Let loop := instanceLoop E F baseDataDir effectiveConfigPath useEmbedded.
Let options := instanceOptions E F baseDataDir effectiveConfigPath useEmbedded.

Lemma loop_S (todo : nat) (i : Z) (acc : list Config) (h : Host) :
  loop (S todo) i acc h
  = match config_LoadOrCreate E (options i) h with
    | (inl err, h') => (inl (failure i err), h')
    | (inr cfg, h') => loop todo (i + 1) (acc ++ [cfg])%list h'
    end.
Proof. reflexivity. Qed.

(** A loop that succeeds appends one configuration per round, each one the
    answer of [LoadOrCreate] to the options of its index, asked on the host
    the rounds before it left. *)
Lemma loop_ok (todo : nat) :
  forall (i : Z) (acc cfgs : list Config) (h h' : Host),
    loop todo i acc h = (inr cfgs, h') ->
    exists new,
      cfgs = (acc ++ new)%list /\ List.length new = todo /\
      forall k cfg, nth_error new k = Some cfg ->
        exists hk hk',
          loop k i acc h = (inr (acc ++ firstn k new)%list, hk) /\
          config_LoadOrCreate E (options (i + Z.of_nat k)) hk = (inr cfg, hk').
Proof.
  induction todo as [|todo IH]; intros i acc cfgs h h' H.
  - inversion H; subst. exists []. rewrite app_nil_r. repeat split.
    intros [|k] cfg Hk; discriminate.
  - rewrite loop_S in H.
    destruct (config_LoadOrCreate E (options i) h) as [[err|c0] h1] eqn:HL;
      [discriminate|].
    apply IH in H. destruct H as (new & -> & Hlen & Hnth).
    exists (c0 :: new). rewrite <- app_assoc. repeat split.
    + simpl. now rewrite Hlen.
    + intros [|k] cfg Hk.
      * inversion Hk; subst. exists h, h1. simpl.
        rewrite app_nil_r, Z.add_0_r. split; [reflexivity | exact HL].
      * simpl in Hk. destruct (Hnth k cfg Hk) as (hk & hk' & Hloop & Hcall).
        exists hk, hk'. rewrite loop_S, HL. split.
        -- rewrite Hloop. simpl. now rewrite <- app_assoc.
        -- rewrite <- Hcall. do 2 f_equal. lia.
Qed.

(** A loop that fails has gone through the rounds before the failing one
    and has stopped there: the host is as the failing call left it. *)
Lemma loop_fails (todo : nat) :
  forall (i : Z) (acc : list Config) (h h' : Host) (e : error),
    loop todo i acc h = (inl e, h') ->
    exists k cfgs hk cause,
      (k < todo)%nat /\
      loop k i acc h = (inr cfgs, hk) /\
      config_LoadOrCreate E (options (i + Z.of_nat k)) hk = (inl cause, h') /\
      e = failure (i + Z.of_nat k) cause.
Proof.
  induction todo as [|todo IH]; intros i acc h h' e H; [discriminate|].
  rewrite loop_S in H.
  destruct (config_LoadOrCreate E (options i) h) as [[err|c0] h1] eqn:HL.
  - inversion H; subst. exists O, acc, h, err. rewrite Z.add_0_r.
    repeat split; [lia | exact HL].
  - apply IH in H. destruct H as (k & cfgs & hk & cause & Hk & Hloop & Hcall & ->).
    exists (S k), cfgs, hk, cause. rewrite loop_S, HL.
    replace (i + Z.of_nat (S k)) with (i + 1 + Z.of_nat k) by lia.
    repeat split; [lia | exact Hloop | exact Hcall].
Qed.

End Loop.

End LoopAny.

(** ** Claim on what the loop builds *)

Lemma nth_error_indices {A : Type} (f : Z -> A) (n k : nat) :
  (k < n)%nat ->
  nth_error (map f (map Z.of_nat (seq 0 n))) k = Some (f (Z.of_nat k)).
Proof.
  intros Hk. rewrite map_map.
  rewrite (nth_error_nth' _ (f (Z.of_nat O)) (n := k))
    by (rewrite length_map, length_seq; exact Hk).
  f_equal. rewrite (map_nth (fun x => f (Z.of_nat x)) (seq 0 n) O k).
  now rewrite seq_nth.
Qed.

(** C6: for an instance count N between 1 and 32 and any base directory,
    the loop of [runMulti], when it has built its configurations, has built
    N of them, the one at position [k] being what [LoadOrCreate] answered
    to the options of index [k]; the data directories of these N options
    are pairwise distinct, and under a non-empty stats pattern so are their
    stats file paths. *)
Theorem instance_paths_distinct
    {float64 Host Config MultiService : Type}
    (E : RunMulti.Externals float64 Host Config MultiService)
    (F : RunMulti.Flags float64)
    (baseDataDir effectiveConfigPath : string) (useEmbedded : bool)
    (cfgs : list Config) (h h' : Host) :
  1 <= RunMulti.multiInstances F <= 32 ->
  RunMulti.instanceLoop E F baseDataDir effectiveConfigPath useEmbedded
    (Z.to_nat (RunMulti.multiInstances F)) 0 [] h = (inr cfgs, h') ->
  let opts :=
    map (RunMulti.instanceOptions E F baseDataDir effectiveConfigPath
           useEmbedded)
        (RunMulti.instanceIndices (RunMulti.multiInstances F)) in
  Z.of_nat (List.length cfgs) = RunMulti.multiInstances F /\
  List.length opts = List.length cfgs /\
  (forall k cfg, nth_error cfgs k = Some cfg ->
     exists o hk hk',
       nth_error opts k = Some o /\
       RunMulti.instanceLoop E F baseDataDir effectiveConfigPath useEmbedded
         k 0 [] h = (inr (firstn k cfgs), hk) /\
       RunMulti.config_LoadOrCreate E o hk = (inr cfg, hk')) /\
  NoDup (map RunMulti.DataDir opts) /\
  (RunMulti.multiStatsFilePattern F <> "" ->
   NoDup (map RunMulti.StatsFile opts)).
Proof.
  intros HN Hloop opts. unfold opts, RunMulti.instanceIndices.
  apply LoopAny.loop_ok in Hloop. destruct Hloop as (new & -> & Hlen & Hnth).
  simpl app in *.
  assert (Hidx : NoDup (map Z.of_nat (seq 0 (Z.to_nat (RunMulti.multiInstances F))))).
  { apply NoDup_map_injective; [|apply seq_NoDup].
    intros x y. apply Nat2Z.inj. }
  split; [rewrite Hlen; lia|].
  split; [now rewrite !length_map, length_seq, Hlen|].
  split; [|split].
  - intros k cfg Hk.
    assert (Hlt : (k < Z.to_nat (RunMulti.multiInstances F))%nat).
    { rewrite <- Hlen. apply nth_error_Some. congruence. }
    destruct (Hnth k cfg Hk) as (hk & hk' & Hl & Hc).
    exists (RunMulti.instanceOptions E F baseDataDir effectiveConfigPath
              useEmbedded (Z.of_nat k)), hk, hk'.
    split; [now apply nth_error_indices|]. split; assumption.
  - rewrite map_map. simpl.
    apply NoDup_map_injective; [|exact Hidx].
    intros i j. apply InstancePaths.instanceDataDir_inj.
  - intros Hne. rewrite map_map. simpl.
    apply NoDup_map_injective; [|exact Hidx].
    intros i j. now apply InstancePaths.statsFilePath_inj.
Qed.

Lemma instance_paths_distinct_witness :
  let opts :=
    map (RunMulti.instanceOptions Demo.externals Demo.flags "/tmp/x"
           "./config.json" false)
        (RunMulti.instanceIndices 4) in
  let cfgs := map Spec.build opts in
  RunMulti.instanceLoop Demo.externals Demo.flags "/tmp/x" "./config.json"
    false 4 0 [] ["/tmp/x"] = (inr cfgs, ["/tmp/x"]) /\
  map Spec.dataDir cfgs
  = ["/tmp/x/instance-0"; "/tmp/x/instance-1"; "/tmp/x/instance-2";
     "/tmp/x/instance-3"] /\
  Z.of_nat (List.length cfgs) = 4 /\
  NoDup (map RunMulti.DataDir opts) /\
  ("stats.json" <> "" -> NoDup (map RunMulti.StatsFile opts)).
Proof.
  intros opts cfgs. split; [reflexivity|]. split; [reflexivity|].
  assert (HN : 1 <= 4 <= 32) by lia.
  destruct (instance_paths_distinct Demo.externals Demo.flags "/tmp/x"
              "./config.json" false cfgs ["/tmp/x"] ["/tmp/x"] HN eq_refl)
    as (Hlen & _ & _ & Hd & Hs).
  split; [exact Hlen|]. split; [exact Hd | exact Hs].
Defined.

(** X1: when the loop of lines 106 to 130 succeeds, it has built exactly as
    many configurations as rounds, in index order, and the configuration at
    position [k] is what [LoadOrCreate] returned for the options of index
    [k], called on the host as the [k] rounds before it left it. *)
Theorem instanceLoop_builds_in_order
    {float64 Host Config MultiService : Type}
    (E : RunMulti.Externals float64 Host Config MultiService)
    (F : RunMulti.Flags float64)
    (baseDataDir effectiveConfigPath : string) (useEmbedded : bool)
    (n : nat) (cfgs : list Config) (h h' : Host) :
  RunMulti.instanceLoop E F baseDataDir effectiveConfigPath useEmbedded
    n 0 [] h = (inr cfgs, h') ->
  List.length cfgs = n /\
  forall k cfg, nth_error cfgs k = Some cfg ->
    exists hk hk',
      RunMulti.instanceLoop E F baseDataDir effectiveConfigPath useEmbedded
        k 0 [] h = (inr (firstn k cfgs), hk) /\
      RunMulti.config_LoadOrCreate E
        (RunMulti.instanceOptions E F baseDataDir effectiveConfigPath
           useEmbedded (Z.of_nat k)) hk = (inr cfg, hk').
Proof.
  intros H. apply LoopAny.loop_ok in H.
  destruct H as (new & -> & Hlen & Hnth). simpl. split; [assumption|].
  intros k cfg Hk. destruct (Hnth k cfg Hk) as (hk & hk' & Hloop & Hcall).
  exists hk, hk'. split; assumption.
Qed.

Lemma instanceLoop_builds_in_order_witness :
  let cfgs := map (fun i => Spec.build
                     (RunMulti.instanceOptions (Scenario.failingAt "none")
                        Demo.flags "/tmp/x" "./config.json" false i))
                  [0; 1; 2] in
  RunMulti.instanceLoop (Scenario.failingAt "none") Demo.flags "/tmp/x"
    "./config.json" false 3 0 [] []
  = (inr cfgs, ["/tmp/x/instance-2"; "/tmp/x/instance-1"; "/tmp/x/instance-0"])
  /\ List.length cfgs = 3%nat.
Proof.
  intros cfgs. split; [reflexivity|].
  apply (proj1 (instanceLoop_builds_in_order (Scenario.failingAt "none")
                  Demo.flags "/tmp/x" "./config.json" false 3 cfgs [] _
                  eq_refl)).
Defined.

(** X2: when the loop of lines 106 to 130 fails, it fails at the first index
    [k] whose [LoadOrCreate] fails: the rounds before it succeeded, the
    error returned wraps the cause under a message that names instance [k],
    and no later instance is touched, the host being as the failing call
    left it. *)
Theorem instanceLoop_stops_at_first_failure
    {float64 Host Config MultiService : Type}
    (E : RunMulti.Externals float64 Host Config MultiService)
    (F : RunMulti.Flags float64)
    (baseDataDir effectiveConfigPath : string) (useEmbedded : bool)
    (n : nat) (e : error) (h h' : Host) :
  RunMulti.instanceLoop E F baseDataDir effectiveConfigPath useEmbedded
    n 0 [] h = (inl e, h') ->
  exists k cfgs hk cause,
    (k < n)%nat /\
    RunMulti.instanceLoop E F baseDataDir effectiveConfigPath useEmbedded
      k 0 [] h = (inr cfgs, hk) /\
    RunMulti.config_LoadOrCreate E
      (RunMulti.instanceOptions E F baseDataDir effectiveConfigPath
         useEmbedded (Z.of_nat k)) hk = (inl cause, h') /\
    Unwrap e = Some cause /\
    Error e = "failed to create config for instance " ++ sprintf_d (Z.of_nat k)
              ++ ": " ++ Error cause.
Proof.
  intros H. apply LoopAny.loop_fails in H.
  destruct H as (k & cfgs & hk & cause & Hk & Hloop & Hcall & ->).
  exists k, cfgs, hk, cause. simpl in *.
  repeat split; try assumption.
  unfold Vocabulary.failure, Errorf_w. simpl.
  now rewrite !InstancePaths.append_assoc.
Qed.

Lemma instanceLoop_stops_at_first_failure_witness :
  RunMulti.instanceLoop (Scenario.failingAt "/tmp/x/instance-2") Demo.flags
    "/tmp/x" "./config.json" false 4 0 [] []
  = (inl (wrapError
            "failed to create config for instance 2: key file unreadable"
            (errorString "key file unreadable")),
     ["/tmp/x/instance-1"; "/tmp/x/instance-0"]) /\
  exists k cfgs hk cause,
    (k < 4)%nat /\
    RunMulti.instanceLoop (Scenario.failingAt "/tmp/x/instance-2") Demo.flags
      "/tmp/x" "./config.json" false k 0 [] [] = (inr cfgs, hk) /\
    RunMulti.config_LoadOrCreate (Scenario.failingAt "/tmp/x/instance-2")
      (RunMulti.instanceOptions (Scenario.failingAt "/tmp/x/instance-2")
         Demo.flags "/tmp/x" "./config.json" false (Z.of_nat k)) hk
    = (inl cause, ["/tmp/x/instance-1"; "/tmp/x/instance-0"]) /\
    Unwrap (wrapError
              "failed to create config for instance 2: key file unreadable"
              (errorString "key file unreadable")) = Some cause /\
    Error (wrapError
             "failed to create config for instance 2: key file unreadable"
             (errorString "key file unreadable"))
    = "failed to create config for instance " ++ sprintf_d (Z.of_nat k)
      ++ ": " ++ Error cause.
Proof.
  split; [reflexivity|].
  apply (instanceLoop_stops_at_first_failure
           (Scenario.failingAt "/tmp/x/instance-2") Demo.flags "/tmp/x"
           "./config.json" false 4 _ [] _ eq_refl).
Defined.

(** ** Configuration as a whole *)

(** X3: when configuration succeeds, the instance count is between 1 and
    32, the psiphon config source was resolved, the base directory was made
    with mode 0700 before any instance was configured, the multi-instance
    service was created from exactly as many configurations as the count,
    built by the loop, and nothing was printed. *)
Theorem setup_succeeds_from_count_configs
    {float64 Host Config MultiService : Type}
    (E : RunMulti.Externals float64 Host Config MultiService)
    (F : RunMulti.Flags float64)
    (w w1 : RunMulti.World Host) (multiService : MultiService) :
  RunMulti.setup E F w = (inr multiService, w1) ->
  1 <= RunMulti.multiInstances F <= 32 /\
  RunMulti.log w1 = RunMulti.log w /\
  exists path useEmbedded h1 h2 cfgs,
    RunMulti.configSource E F (RunMulti.host w) = inr (path, useEmbedded) /\
    RunMulti.os_MkdirAll E (RunMulti.cmd_GetDataDir E) 448 (RunMulti.host w)
    = (None, h1) /\
    RunMulti.instanceLoop E F (RunMulti.cmd_GetDataDir E) path useEmbedded
      (Z.to_nat (RunMulti.multiInstances F)) 0 [] h1 = (inr cfgs, h2) /\
    Z.of_nat (List.length cfgs) = RunMulti.multiInstances F /\
    RunMulti.conduit_NewMultiService E cfgs h2
    = (inr multiService, RunMulti.host w1).
Proof.
  unfold RunMulti.setup.
  destruct ((RunMulti.multiInstances F <? 1) || (RunMulti.multiInstances F >? 32))
    eqn:Hn; [discriminate|].
  apply orb_false_iff in Hn. destruct Hn as [Hlo Hhi].
  apply Z.ltb_ge in Hlo. rewrite Z.gtb_ltb in Hhi. apply Z.ltb_ge in Hhi.
  destruct (RunMulti.configSource E F (RunMulti.host w)) as [err|[p u]];
    [discriminate|].
  destruct (RunMulti.os_MkdirAll E (RunMulti.cmd_GetDataDir E) 448
              (RunMulti.host w)) as [[err|] h1]; [discriminate|].
  destruct (RunMulti.instanceLoop E F (RunMulti.cmd_GetDataDir E) p u
              (Z.to_nat (RunMulti.multiInstances F)) 0 [] h1)
    as [[err|cfgs] h2] eqn:Hloop; [discriminate|].
  destruct (RunMulti.conduit_NewMultiService E cfgs h2) as [[err|svc] h3]
    eqn:Hnew; [discriminate|].
  intros H. inversion H; subst. simpl.
  split; [lia|]. split; [reflexivity|].
  exists p, u, h1, h2, cfgs. repeat split; try assumption.
  apply LoopAny.loop_ok in Hloop. destruct Hloop as (new & -> & Hlen & _).
  simpl. rewrite Hlen. lia.
Qed.

Lemma setup_succeeds_from_count_configs_witness :
  1 <= 4 <= 32 /\
  exists path useEmbedded h1 h2 cfgs,
    RunMulti.configSource Demo.externals Demo.flags ["./config.json"]
    = inr (path, useEmbedded) /\
    RunMulti.os_MkdirAll Demo.externals "/tmp/x" 448 ["./config.json"]
    = (None, h1) /\
    RunMulti.instanceLoop Demo.externals Demo.flags "/tmp/x" path useEmbedded
      4 0 [] h1 = (inr cfgs, h2) /\
    Z.of_nat (List.length cfgs) = 4 /\
    RunMulti.conduit_NewMultiService Demo.externals cfgs h2
    = (inr (map (fun i => Spec.build
                   (RunMulti.instanceOptions Demo.externals Demo.flags
                      "/tmp/x" "./config.json" false i)) [0; 1; 2; 3]),
       ["/tmp/x"; "./config.json"]).
Proof.
  pose proof (setup_succeeds_from_count_configs Demo.externals Demo.flags
                Demo.world _ _ eq_refl) as (Hn & _ & H).
  split; [exact Hn | exact H].
Defined.

(** ** What the main goroutine prints *)

Module LogFacts.

Import RunMulti Vocabulary LogVocabulary.

Section Log.

Context {float64 Host Config MultiService : Type}.
Variable E : Externals float64 Host Config MultiService.
Variable F : Flags float64.

Lemma mainPrinted_app (l m : list Event) :
  mainPrinted (l ++ m) = (mainPrinted l ++ mainPrinted m)%list.
Proof.
  induction l as [|[text|] l IH]; simpl; [reflexivity| |assumption].
  destruct (String.eqb text shutdownNotice); simpl; now rewrite IH.
Qed.

Lemma printedSince_emit (l0 : list Event) (texts : list string)
    (w : World Host) (ev : Event) :
  printedSince l0 texts w ->
  printedSince l0 (texts ++ mainPrinted [ev]) (emit ev w).
Proof.
  intros (added & Hlog & Hp). exists (added ++ [ev])%list. split.
  - simpl. now rewrite Hlog, app_assoc.
  - now rewrite mainPrinted_app, Hp.
Qed.

Lemma printedSince_silent (l0 : list Event) (texts : list string)
    (w : World Host) (ev : Event) :
  mainPrinted [ev] = [] ->
  printedSince l0 texts w -> printedSince l0 texts (emit ev w).
Proof.
  intros Hev H. apply (printedSince_emit _ _ _ ev) in H.
  now rewrite Hev, app_nil_r in H.
Qed.

Lemma printedSince_cancel (l0 : list Event) (texts : list string)
    (c : Conc) (w : World Host) :
  printedSince l0 texts w -> printedSince l0 texts (snd (cancel (c, w))).
Proof.
  intros H. unfold cancel. destruct (ctxDone c); [exact H|].
  now apply printedSince_silent.
Qed.

(** The bridge prints nothing but the shutdown notice. *)
Lemma printedSince_async (l0 : list Event) (texts : list string)
    (c : Conc) (w : World Host) (ev : AsyncEvent) :
  printedSince l0 texts w -> printedSince l0 texts (snd (async (c, w) ev)).
Proof.
  intros H. destruct ev as [sig|]; simpl.
  - now destruct (List.length (sigChan c) <? 1)%nat.
  - destruct (pc c); simpl; try exact H.
    + now destruct (sigChan c).
    + apply printedSince_silent; [reflexivity | exact H].
    + destruct (ctxDone c); [exact H|]. now apply printedSince_silent.
Qed.

Lemma printedSince_asyncs (l0 : list Event) (texts : list string)
    (evs : list AsyncEvent) :
  forall (c : Conc) (w : World Host),
    printedSince l0 texts w ->
    printedSince l0 texts (snd (asyncs evs (c, w))).
Proof.
  unfold asyncs. induction evs as [|ev evs IH]; intros c w H; [exact H|].
  cbn [fold_left].
  pose proof (printedSince_async l0 texts c w ev H) as H1.
  destruct (async (c, w) ev) as [c1 w1]. now apply IH.
Qed.

Lemma printedSince_host (l0 : list Event) (texts : list string)
    (w : World Host) (h : Host) :
  printedSince l0 texts w ->
  printedSince l0 texts {| host := h; log := log w |}.
Proof. intros (added & Hlog & Hp). exists added. split; assumption. Qed.

Lemma startup_printed :
  mainPrinted [Printed (startupMessage E F)] = [startupMessage E F].
Proof.
  simpl. destruct (String.eqb_spec (startupMessage E F) shutdownNotice) as [e|];
    [|reflexivity].
  unfold startupMessage, shutdownNotice in e. simpl in e. discriminate.
Qed.

Lemma printedSince_untilRunReturns (sched : Schedule) (w : World Host) :
  printedSince (log w) [startupMessage E F]
    (snd (untilRunReturns E F sched w)).
Proof.
  unfold untilRunReturns.
  assert (H0 : printedSince (log w) [] w)
    by (exists []; split; [now rewrite app_nil_r | reflexivity]).
  apply (printedSince_asyncs _ _ (beforeRun sched)
           {| sigChan := []; pc := AtReceive; ctxDone := false |}) in H0.
  destruct (asyncs (beforeRun sched) _) as [c1 w1]. simpl in H0.
  apply printedSince_asyncs.
  apply (printedSince_emit _ _ _ (Printed (startupMessage E F))) in H0.
  now rewrite startup_printed in H0.
Qed.

Lemma printedSince_serve (multiService : MultiService) (sched : Schedule)
    (w : World Host) :
  printedSince (log w)
    (match fst (serve E F multiService sched w) with
     | Some _ => [startupMessage E F]
     | None => [startupMessage E F; stoppedMessage]
     end)
    (snd (serve E F multiService sched w)).
Proof.
  unfold serve.
  pose proof (printedSince_untilRunReturns sched w) as H.
  destruct (untilRunReturns E F sched w) as [c w1]. simpl in H.
  destruct (conduit_Run E multiService (ctxDone c) (host w1)) as [err h].
  apply (printedSince_host _ _ _ h) in H.
  assert (Hfinish :
    forall r,
      r = (let (c3, w3) :=
             asyncs (afterRun sched) (c, {| host := h; log := log w1 |}) in
           (@None error,
            snd (cancel (c3, emit (Printed ("All instances stopped." ++ nl))
                               w3)))) ->
      printedSince (log w)
        (match fst r with
         | Some _ => [startupMessage E F]
         | None => [startupMessage E F; stoppedMessage]
         end) (snd r)).
  { intros r ->.
    apply (printedSince_asyncs _ _ (afterRun sched) c) in H.
    destruct (asyncs (afterRun sched) _) as [c3 w3]. simpl in H |- *.
    apply printedSince_cancel.
    now apply (printedSince_emit _ _ _
                 (Printed ("All instances stopped." ++ nl))) in H. }
  destruct err as [e|]; [|now apply Hfinish].
  destruct (negb (ctxDone c)); [|now apply Hfinish].
  simpl. now apply printedSince_cancel.
Qed.

End Log.

End LogFacts.

(** X5: of its own texts, [runMulti] prints nothing when configuration
    fails; the startup message alone when it returns the error of [Run];
    and the startup message followed by "All instances stopped." when it
    returns [nil].  So the closing message is printed exactly when the
    result is [nil], once, and after the startup message. *)
Theorem runMulti_prints
    {float64 Host Config MultiService : Type}
    (E : RunMulti.Externals float64 Host Config MultiService)
    (F : RunMulti.Flags float64) (sched : RunMulti.Schedule)
    (w : RunMulti.World Host) :
  exists added,
    RunMulti.log (snd (RunMulti.runMulti E F sched w))
    = (RunMulti.log w ++ added)%list /\
    Vocabulary.mainPrinted added
    = match fst (RunMulti.setup E F w),
            fst (RunMulti.runMulti E F sched w) with
      | inl _, _ => []
      | inr _, Some _ => [RunMulti.startupMessage E F]
      | inr _, None =>
          [RunMulti.startupMessage E F; Vocabulary.stoppedMessage]
      end.
Proof.
  unfold RunMulti.runMulti.
  pose proof (BridgeFacts.setup_log E F w) as Hlog.
  destruct (RunMulti.setup E F w) as [[err|svc] w1]; simpl in Hlog |- *.
  - exists []. rewrite Hlog, app_nil_r. split; reflexivity.
  - rewrite <- Hlog. apply (LogFacts.printedSince_serve E F svc sched w1).
Qed.

Lemma runMulti_prints_witness :
  Vocabulary.mainPrinted
    (RunMulti.log (snd (RunMulti.runMulti Demo.externals Demo.flags
                          Demo.interruptedTwice Demo.world)))
  = ["Starting 4 Psiphon Conduit instances (Max Clients/instance: 50, Bandwidth/instance: 40 Mbps)"
     ++ nl; Vocabulary.stoppedMessage].
Proof.
  destruct (runMulti_prints Demo.externals Demo.flags Demo.interruptedTwice
              Demo.world) as (added & Hlog & Hp).
  simpl RunMulti.log at 2 in Hlog. simpl app in Hlog.
  rewrite Hlog. exact Hp.
Defined.

(** ** The context and the listener *)

Module BridgeMore.

Import RunMulti Vocabulary.

Section Bridge.

Context {float64 Host Config MultiService : Type}.
Variable E : Externals float64 Host Config MultiService.
Variable F : Flags float64.

Lemma progress_done (c : Conc) (added : list Event) :
  progress c added -> ctxDone c = true ->
  pc c = Exited /\ notices added = 1%nat /\ cancellations added = 1%nat.
Proof.
  unfold progress. destruct (pc c); intros (Hn & Hc & Hd) Ht;
    try congruence. auto.
Qed.

Lemma progress_exited (c : Conc) (added : list Event) :
  progress c added -> pc c = Exited -> ctxDone c = true.
Proof. unfold progress. intros H Hp. rewrite Hp in H. tauto. Qed.

(** A context that is done stays done. *)
Lemma async_done (c : Conc) (w : World Host) (ev : AsyncEvent) :
  ctxDone c = true -> ctxDone (fst (async (c, w) ev)) = true.
Proof.
  intros Hd. destruct ev as [sig|]; simpl.
  - now destruct (List.length (sigChan c) <? 1)%nat.
  - destruct (pc c); simpl; try assumption.
    + now destruct (sigChan c).
    + now rewrite Hd.
Qed.

Lemma asyncs_done (evs : list AsyncEvent) :
  forall (c : Conc) (w : World Host),
    ctxDone c = true -> ctxDone (fst (asyncs evs (c, w))) = true.
Proof.
  unfold asyncs. induction evs as [|ev evs IH]; intros c w Hd; [exact Hd|].
  cbn [fold_left]. pose proof (async_done c w ev Hd) as H1.
  destruct (async (c, w) ev) as [c1 w1]. now apply IH.
Qed.

(** The closing [cancel()] leaves exactly one cancellation in the log. *)
Lemma since_cancel_exact (l0 : list Event) (s : Conc * World Host) :
  since l0 s ->
  exists added,
    log (snd (cancel s)) = (l0 ++ added)%list /\
    cancellations added = 1%nat /\
    (ctxDone (fst s) = true -> notices added = 1%nat).
Proof.
  destruct s as [c w]. intros (added & Hlog & Hp). simpl in Hlog, Hp.
  unfold cancel. simpl fst. destruct (ctxDone c) eqn:Hd.
  - exists added. destruct (progress_done c added Hp Hd) as (_ & Hn & Hc).
    split; [assumption|]. split; [assumption|]. intros _. assumption.
  - exists (added ++ [CtxCancelled])%list. split; [|split].
    + now apply (BridgeFacts.since_emit l0 c).
    + rewrite BridgeFacts.cancellations_snoc.
      destruct (Event_eq_dec CtxCancelled CtxCancelled); [|congruence].
      unfold progress in Hp. destruct (pc c); try lia.
      destruct Hp as (_ & _ & Hp). congruence.
    + discriminate.
Qed.

Lemma serve_exact (multiService : MultiService) (sched : Schedule)
    (w : World Host) :
  exists added,
    log (snd (serve E F multiService sched w)) = (log w ++ added)%list /\
    cancellations added = 1%nat /\
    (ctxDone (fst (untilRunReturns E F sched w)) = true ->
     notices added = 1%nat).
Proof.
  unfold serve.
  pose proof (BridgeFacts.since_untilRunReturns E F sched w) as H.
  destruct (untilRunReturns E F sched w) as [c w1]. simpl fst.
  destruct (conduit_Run E multiService (ctxDone c) (host w1)) as [err h].
  apply (BridgeFacts.since_host _ _ _ h) in H.
  assert (Hfinish :
    exists added,
      log (snd (let (c3, w3) :=
                  asyncs (afterRun sched) (c, {| host := h; log := log w1 |}) in
                (@None error,
                 snd (cancel (c3, emit (Printed ("All instances stopped." ++ nl))
                                    w3)))))
      = (log w ++ added)%list /\
      cancellations added = 1%nat /\
      (ctxDone c = true -> notices added = 1%nat)).
  { pose proof (BridgeFacts.since_asyncs (log w) (afterRun sched) _ H) as H3.
    pose proof (asyncs_done (afterRun sched) c
                  {| host := h; log := log w1 |}) as Hd.
    destruct (asyncs (afterRun sched) _) as [c3 w3]. simpl in Hd.
    apply (BridgeFacts.since_print _ _ _ ("All instances stopped." ++ nl)
             BridgeFacts.stopped_not_notice) in H3.
    destruct (since_cancel_exact _ _ H3) as (added & Hlog & Hc & Hn).
    exists added. repeat split; try assumption.
    intros Hdone. apply Hn. simpl. now apply Hd. }
  destruct err as [e|]; [|exact Hfinish].
  destruct (negb (ctxDone c)); [|exact Hfinish].
  apply (since_cancel_exact _ _ H).
Qed.

(** While a signal waits or has been received, every step of the listener
    takes it one statement further, up to its exit. *)
Lemma async_rank (c : Conc) (w : World Host) (ev : AsyncEvent) :
  pending c ->
  pending (fst (async (c, w) ev)) /\
  rank (pc (fst (async (c, w) ev)))
  = Nat.min 3 (rank (pc c) + listenerSteps [ev]).
Proof.
  unfold pending. intros Hp. destruct ev as [sig|]; simpl.
  - destruct (List.length (sigChan c) <? 1)%nat; simpl.
    + split; [intros _; now destruct (sigChan c)|].
      rewrite Nat.add_0_r. destruct (pc c); reflexivity.
    + split; [assumption|].
      rewrite Nat.add_0_r. destruct (pc c); reflexivity.
  - destruct (pc c) eqn:Hpc; simpl.
    + destruct (sigChan c) eqn:Hs; [now destruct Hp|]. simpl.
      split; [discriminate | reflexivity].
    + split; [discriminate | reflexivity].
    + destruct (ctxDone c); simpl; (split; [discriminate | reflexivity]).
    + rewrite Hpc. simpl. split; [discriminate | reflexivity].
Qed.

Lemma asyncs_rank (evs : list AsyncEvent) :
  forall (c : Conc) (w : World Host),
    pending c ->
    rank (pc (fst (asyncs evs (c, w))))
    = Nat.min 3 (rank (pc c) + listenerSteps evs).
Proof.
  unfold asyncs. induction evs as [|ev evs IH]; intros c w Hp.
  - simpl. rewrite Nat.add_0_r. destruct (pc c); reflexivity.
  - cbn [fold_left]. destruct (async_rank c w ev Hp) as (Hp1 & Hr).
    destruct (async (c, w) ev) as [c1 w1]. simpl in Hp1, Hr.
    rewrite (IH c1 w1 Hp1), Hr.
    destruct ev as [sig|]; simpl; destruct (pc c); simpl; lia.
Qed.

(** A delivered signal is in the channel, whether it was the one buffered
    or one before it was. *)
Lemma deliver_pending (c : Conc) (w : World Host) (sig : Signal) :
  pending (fst (async (c, w) (Deliver sig))).
Proof.
  unfold pending. simpl.
  destruct (List.length (sigChan c) <? 1)%nat eqn:Hl; simpl; intros _.
  - now destruct (sigChan c).
  - destruct (sigChan c); [discriminate Hl | discriminate].
Qed.

Lemma handled_done (sched : Schedule) (w : World Host)
    (evs1 evs2 : list AsyncEvent) (sig : Signal) :
  duringRun sched = (evs1 ++ Deliver sig :: evs2)%list ->
  (3 <= listenerSteps evs2)%nat ->
  ctxDone (fst (untilRunReturns E F sched w)) = true.
Proof.
  intros Hd Hsteps.
  pose proof (BridgeFacts.since_untilRunReturns E F sched w) as Hs.
  destruct Hs as (added & _ & Hp). apply (progress_exited _ added Hp).
  unfold untilRunReturns.
  destruct (asyncs (beforeRun sched) _) as [c1 w1].
  rewrite Hd. unfold asyncs. rewrite fold_left_app. cbn [fold_left].
  destruct (fold_left async evs1 _) as [c2 w2].
  pose proof (deliver_pending c2 w2 sig) as Hpend.
  destruct (async (c2, w2) (Deliver sig)) as [c3 w3]. simpl in Hpend.
  pose proof (asyncs_rank evs2 c3 w3 Hpend) as Hr. unfold asyncs in Hr.
  replace (Nat.min 3 (rank (pc c3) + listenerSteps evs2)) with 3%nat in Hr
    by lia.
  destruct (pc (fst (fold_left async evs2 (c3, w3)))); simpl in Hr;
    try reflexivity; discriminate.
Qed.

Lemma serve_done (multiService : MultiService) (sched : Schedule)
    (w : World Host) :
  ctxDone (fst (untilRunReturns E F sched w)) = true ->
  fst (serve E F multiService sched w) = None.
Proof.
  unfold serve. destruct (untilRunReturns E F sched w) as [c w1]. simpl.
  intros ->.
  destruct (conduit_Run E multiService true (host w1)) as [[e|] h]; simpl;
    destruct (asyncs (afterRun sched) _); reflexivity.
Qed.

End Bridge.

End BridgeMore.

(** X6: every [runMulti] that gets as far as creating its context cancels
    it exactly once before it returns, by the listener or else by the
    deferred [cancel()]; one that fails in configuration creates and
    cancels none. *)
Theorem context_cancelled_exactly_once
    {float64 Host Config MultiService : Type}
    (E : RunMulti.Externals float64 Host Config MultiService)
    (F : RunMulti.Flags float64) (sched : RunMulti.Schedule)
    (w : RunMulti.World Host) :
  exists added,
    RunMulti.log (snd (RunMulti.runMulti E F sched w))
    = (RunMulti.log w ++ added)%list /\
    RunMulti.cancellations added
    = match fst (RunMulti.setup E F w) with
      | inl _ => 0%nat
      | inr _ => 1%nat
      end.
Proof.
  unfold RunMulti.runMulti.
  pose proof (BridgeFacts.setup_log E F w) as Hlog.
  destruct (RunMulti.setup E F w) as [[err|svc] w1]; simpl in Hlog |- *.
  - exists []. rewrite Hlog, app_nil_r. split; reflexivity.
  - rewrite <- Hlog.
    destruct (BridgeMore.serve_exact E F svc sched w1) as (added & H & Hc & _).
    exists added. split; assumption.
Qed.

(** X7: [runMulti] drops an error of [Run] (returns [nil] although [Run]
    returned one) only after the shutdown notice was printed, exactly
    once. *)
Theorem run_error_dropped_only_after_notice
    {float64 Host Config MultiService : Type}
    (E : RunMulti.Externals float64 Host Config MultiService)
    (F : RunMulti.Flags float64) (sched : RunMulti.Schedule)
    (w w1 : RunMulti.World Host) (multiService : MultiService) (err : error) :
  RunMulti.setup E F w = (inr multiService, w1) ->
  (let s := RunMulti.untilRunReturns E F sched w1 in
   fst (RunMulti.conduit_Run E multiService (RunMulti.ctxDone (fst s))
          (RunMulti.host (snd s))) = Some err) ->
  fst (RunMulti.runMulti E F sched w) = None ->
  exists added,
    RunMulti.log (snd (RunMulti.runMulti E F sched w))
    = (RunMulti.log w ++ added)%list /\
    RunMulti.notices added = 1%nat.
Proof.
  intros Hsetup Hran Hnil.
  pose proof (BridgeFacts.setup_log E F w) as Hlog.
  rewrite Hsetup in Hlog. simpl in Hlog.
  unfold RunMulti.runMulti in *. rewrite Hsetup in *.
  destruct (BridgeMore.serve_exact E F multiService sched w1)
    as (added & H & _ & Hn).
  exists added. rewrite <- Hlog. split; [assumption|]. apply Hn.
  unfold RunMulti.serve in Hnil.
  destruct (RunMulti.untilRunReturns E F sched w1) as [c w2].
  simpl in Hran |- *.
  destruct (RunMulti.conduit_Run E multiService (RunMulti.ctxDone c)
              (RunMulti.host w2)) as [r h].
  simpl in Hran. subst r.
  destruct (RunMulti.ctxDone c); [reflexivity | discriminate].
Qed.

(** X8: a signal delivered while [Run] blocks, with the listener scheduled
    three times or more between the delivery and the return of [Run], has
    cancelled the context by then, and [runMulti] returns [nil] whatever
    [Run] returns. *)
Theorem handled_signal_gives_nil
    {float64 Host Config MultiService : Type}
    (E : RunMulti.Externals float64 Host Config MultiService)
    (F : RunMulti.Flags float64) (sched : RunMulti.Schedule)
    (w w1 : RunMulti.World Host) (multiService : MultiService)
    (evs1 evs2 : list RunMulti.AsyncEvent) (sig : RunMulti.Signal) :
  RunMulti.setup E F w = (inr multiService, w1) ->
  RunMulti.duringRun sched = (evs1 ++ RunMulti.Deliver sig :: evs2)%list ->
  (3 <= Vocabulary.listenerSteps evs2)%nat ->
  RunMulti.ctxDone (fst (RunMulti.untilRunReturns E F sched w1)) = true /\
  fst (RunMulti.runMulti E F sched w) = None.
Proof.
  intros Hsetup Hd Hsteps.
  pose proof (BridgeMore.handled_done E F sched w1 evs1 evs2 sig Hd Hsteps)
    as Hdone.
  split; [exact Hdone|].
  unfold RunMulti.runMulti. rewrite Hsetup.
  now apply BridgeMore.serve_done.
Qed.

Lemma run_error_dropped_only_after_notice_witness :
  exists added,
    RunMulti.log (snd (RunMulti.runMulti Demo.externals Demo.flags
                         Demo.interruptedTwice Demo.world))
    = (RunMulti.log Demo.world ++ added)%list /\
    RunMulti.notices added = 1%nat.
Proof.
  apply (run_error_dropped_only_after_notice Demo.externals Demo.flags
           Demo.interruptedTwice Demo.world _ _
           (errorString "broker unreachable") eq_refl);
    reflexivity.
Defined.

Lemma handled_signal_gives_nil_witness :
  RunMulti.ctxDone
    (fst (RunMulti.untilRunReturns Demo.externals Demo.flags Scenario.handled
            {| RunMulti.host := ["/tmp/x"; "./config.json"];
               RunMulti.log := [] |})) = true /\
  fst (RunMulti.runMulti Demo.externals Demo.flags Scenario.handled Demo.world)
  = None.
Proof.
  apply (handled_signal_gives_nil Demo.externals Demo.flags Scenario.handled
           Demo.world _ _ []
           [RunMulti.Listener; RunMulti.Deliver RunMulti.SIGINT;
            RunMulti.Listener; RunMulti.Listener]
           RunMulti.SIGTERM eq_refl eq_refl).
  simpl. lia.
Defined.

(** ** Where the paths of an instance lie *)

Module PathMore.

Import Filepath FilepathFacts Vocabulary.
Local Open Scope list_scope.

Lemma elements_app_sep (x q : bytes) :
  elements (x ++ Separator :: q) = elements x ++ elements q.
Proof.
  induction x as [|c x IH]; [reflexivity|]. simpl.
  destruct (IsPathSeparator c); rewrite IH; [reflexivity|].
  pose proof (ExtFacts.elements_nonempty x) as Hne.
  destruct (elements x); [congruence | reflexivity].
Qed.

(** [Clean] writes elements of the path only. *)
Lemma clean_step_incl (rooted : bool) (out : list bytes) (e x : bytes) :
  In x (clean_step rooted out e) -> x = e \/ In x out.
Proof.
  unfold clean_step. destruct e as [|c e]; [auto|].
  destruct (is_dot (c :: e)); [auto|].
  destruct (is_dotdot (c :: e)).
  - destruct out as [|top below].
    + destruct rooted; simpl; intuition.
    + destruct (is_dotdot top); [destruct rooted|]; simpl; intuition.
  - simpl. intuition.
Qed.

Lemma clean_step_kept (rooted : bool) (out : list bytes) (e : bytes) :
  Forall kept out -> Forall kept (clean_step rooted out e).
Proof.
  intros Hout. apply Forall_forall. intros x Hin.
  destruct (clean_step_incl rooted out e x Hin) as [-> | Hx].
  - revert Hin. unfold clean_step. destruct e as [|c e].
    + intros Hin. apply (proj1 (Forall_forall _ _) Hout _ Hin).
    + destruct (is_dot (c :: e)) eqn:Hd.
      * intros Hin. apply (proj1 (Forall_forall _ _) Hout _ Hin).
      * intros _. split; [discriminate | assumption].
  - apply (proj1 (Forall_forall _ _) Hout _ Hx).
Qed.

Lemma fold_kept (rooted : bool) (es : list bytes) :
  forall out, Forall kept out ->
    Forall kept (fold_left (clean_step rooted) es out).
Proof.
  induction es as [|e es IH]; intros out H; [exact H|].
  simpl. apply IH. now apply clean_step_kept.
Qed.

Lemma fold_nosep (rooted : bool) (es : list bytes) :
  forall out, Forall nosep es -> Forall nosep out ->
    Forall nosep (fold_left (clean_step rooted) es out).
Proof.
  induction es as [|e es IH]; intros out Hes H; [exact H|].
  inversion Hes; subst. simpl. apply IH; [assumption|].
  apply Forall_forall. intros x Hin.
  destruct (clean_step_incl rooted out e x Hin) as [-> | Hx];
    [assumption|].
  apply (proj1 (Forall_forall _ _) H _ Hx).
Qed.

Lemma join_prefix_join (l : list bytes) :
  l <> [] -> join_prefix l = join_elements l ++ [Separator].
Proof.
  induction l as [|e l IH]; [congruence|]. intros _.
  destruct l as [|e' l]; [reflexivity|].
  change (join_prefix (e :: e' :: l))
    with (e ++ Separator :: join_prefix (e' :: l)).
  rewrite IH by discriminate.
  change (join_elements (e :: e' :: l))
    with (e ++ Separator :: join_elements (e' :: l)).
  now rewrite <- app_assoc.
Qed.

(** The first byte of what is written for a list of kept elements without
    separators is a byte of the first element: no separator, and not all
    there is when it is a dot. *)
Lemma join_kept (l : list bytes) :
  l <> [] -> Forall kept l -> Forall nosep l ->
  join_elements l <> [] /\ join_elements l <> [dot] /\
  join_elements l <> [Separator].
Proof.
  destruct l as [|e l]; [congruence|]. intros _ Hk Hn.
  inversion Hk as [|? ? [Hne Hdot] _]; subst.
  inversion Hn as [|? ? He _]; subst.
  destruct e as [|c e]; [congruence|].
  inversion He as [|? ? Hc _]; subst.
  assert (Hsep : c <> Separator).
  { intros ->. unfold IsPathSeparator in Hc.
    now rewrite Ascii.eqb_refl in Hc. }
  destruct l as [|e' l]; simpl.
  - repeat split; try discriminate.
    + intros H. inversion H; subst. vm_compute in Hdot. discriminate.
    + intros H. inversion H; subst. congruence.
  - repeat split; try discriminate.
    + intros H. inversion H as [[Hc' He']].
      destruct e; discriminate.
    + intros H. inversion H; subst. congruence.
Qed.

Lemma is_rooted_app_l (x q : bytes) :
  x <> [] -> is_rooted (x ++ q) = is_rooted x.
Proof. destruct x; [congruence | reflexivity]. Qed.

(** A name of three bytes or more without separator, put after a non-empty
    directory and a separator, is cleaned to the name under the cleaned
    directory. *)
Lemma clean_bytes_child (x name : bytes) :
  x <> [] -> nosep name -> (3 <= List.length name)%nat ->
  clean_bytes (x ++ Separator :: name)
  = if list_eq_dec Ascii.ascii_dec (clean_bytes x) [dot] then name
    else if list_eq_dec Ascii.ascii_dec (clean_bytes x) [Separator]
         then Separator :: name
         else clean_bytes x ++ Separator :: name.
Proof.
  intros Hx Hname Hlen. unfold clean_bytes.
  rewrite is_rooted_app_l by assumption.
  rewrite elements_app_sep, (elements_nosep name Hname), fold_left_app.
  set (ro := is_rooted x).
  set (out := fold_left (clean_step ro) (elements x) []).
  assert (Hk : Forall kept (rev out))
    by (apply Forall_rev, fold_kept; constructor).
  assert (Hn : Forall nosep (rev out))
    by (apply Forall_rev, fold_nosep;
        [apply ExtFacts.elements_nosep_all | constructor]).
  cbn [fold_left]. rewrite clean_step_long by assumption.
  cbn [rev]. rewrite join_elements_snoc.
  destruct (rev out) as [|e l] eqn:Hout.
  - simpl. destruct ro.
    + destruct (list_eq_dec Ascii.ascii_dec [Separator] [dot]);
        [discriminate|].
      destruct (list_eq_dec Ascii.ascii_dec [Separator] [Separator]);
        [reflexivity | congruence].
    + destruct (list_eq_dec Ascii.ascii_dec [dot] [dot]);
        [|congruence].
      destruct name; [simpl in Hlen; lia | reflexivity].
  - rewrite join_prefix_join by discriminate.
    destruct (join_kept (e :: l)) as (Hne & Hnd & Hns);
      [discriminate | assumption | assumption |].
    rewrite <- app_assoc. cbn [app].
    destruct ro.
    + destruct (list_eq_dec Ascii.ascii_dec
                  (Separator :: join_elements (e :: l)) [dot]) as [H|_];
        [discriminate|].
      destruct (list_eq_dec Ascii.ascii_dec
                  (Separator :: join_elements (e :: l)) [Separator]) as [H|_].
      * inversion H. congruence.
      * reflexivity.
    + destruct (e :: l ++ [name]) eqn:Hcons; [discriminate|].
      destruct (list_eq_dec Ascii.ascii_dec (join_elements (e :: l)) [dot]);
        [congruence|].
      destruct (list_eq_dec Ascii.ascii_dec (join_elements (e :: l))
                  [Separator]); [congruence|].
      reflexivity.
Qed.

End PathMore.

Module ChildFacts.

Import Filepath FilepathFacts Vocabulary.

Lemma str_eq_iff (l : bytes) (s : string) : str l = s <-> l = b s.
Proof.
  split; intros H.
  - now rewrite <- H, b_str.
  - now rewrite H, str_b.
Qed.

Lemma clean_bytes_single (name : bytes) :
  nosep name -> (3 <= List.length name)%nat -> clean_bytes name = name.
Proof.
  intros Hn Hlen. unfold clean_bytes.
  rewrite (elements_nosep name Hn). cbn [fold_left].
  rewrite clean_step_long by assumption.
  destruct name as [|c name]; [simpl in Hlen; lia|].
  inversion Hn as [|? ? Hc _]; subst. simpl. now rewrite Hc.
Qed.

(** A name of three bytes or more without separator is joined to a
    directory as its direct child. *)
Lemma Join_child (dir name : string) :
  nosep (b name) -> (3 <= String.length name)%nat ->
  Join dir name = childPrefix dir ++ name.
Proof.
  intros Hn Hlen. rewrite <- b_length in Hlen.
  destruct dir as [|c dir].
  - rewrite InstancePaths.Join_nonempty_name
      by (intros ->; simpl in Hlen; lia).
    unfold Clean. rewrite clean_bytes_single by assumption.
    now rewrite str_b.
  - change (Join (String c dir) name)
      with (Clean (String c dir ++ "/" ++ name)).
    unfold childPrefix, Clean. cbn [String.eqb].
    replace (b (String c dir ++ "/" ++ name))
      with (b (String c dir) ++ Separator :: b name)%list
      by (now rewrite !b_app).
    rewrite PathMore.clean_bytes_child by (try discriminate; assumption).
    destruct (list_eq_dec Ascii.ascii_dec (clean_bytes (b (String c dir)))
                [dot]) as [H1|H1].
    + rewrite H1. simpl. now rewrite str_b.
    + destruct (String.eqb_spec (str (clean_bytes (b (String c dir)))) ".")
        as [H|_]; [apply str_eq_iff in H; contradiction|].
      destruct (list_eq_dec Ascii.ascii_dec (clean_bytes (b (String c dir)))
                  [Separator]) as [H2|H2].
      * rewrite H2. simpl. now rewrite str_b.
      * destruct (String.eqb_spec (str (clean_bytes (b (String c dir)))) "/")
          as [H|_]; [apply str_eq_iff in H; contradiction|].
        rewrite InstancePaths.append_assoc.
        change (Separator :: b name) with (b ("/" ++ name)).
        now rewrite str_app, str_b.
Qed.

Lemma nosep_append (s t : string) :
  nosep (b s) -> nosep (b t) -> nosep (b (s ++ t)).
Proof. intros Hs Ht. rewrite b_app. now apply nosep_app. Qed.

Lemma nosep_prefix (s t : string) : nosep (b (s ++ t)) -> nosep (b s).
Proof.
  rewrite b_app. intros H. apply Forall_app in H. tauto.
Qed.

End ChildFacts.

(** X9: the data directory of instance [i] is the direct child
    [instance-<i>] of the cleaned base directory (of the working directory
    when the base is empty or cleans to [.], of the root when it cleans to
    [/]); and under a stats pattern that is a plain file name, with no
    separator in it, the stats file is a direct child of the same
    directory, named by the pattern with [-instance-<i>] before its
    extension. *)
Theorem instance_paths_under_base (baseDataDir pattern : string) (i : Z) :
  RunMulti.instanceDataDir baseDataDir i
  = Vocabulary.childPrefix baseDataDir ++ "instance-" ++ sprintf_d i /\
  (pattern <> "" -> Filepath.nosep (b pattern) ->
   exists stem,
     pattern = stem ++ Filepath.Ext pattern /\
     RunMulti.statsFilePath baseDataDir pattern i
     = Vocabulary.childPrefix baseDataDir
       ++ stem ++ "-instance-" ++ sprintf_d i ++ Filepath.Ext pattern).
Proof.
  split.
  - unfold RunMulti.instanceDataDir. apply ChildFacts.Join_child.
    + apply ChildFacts.nosep_append;
        [apply InstancePaths.nosep_instance0 | apply InstancePaths.nosep_sprintf_d].
    + rewrite InstancePaths.length_append. simpl. lia.
  - intros Hne Hn.
    pose proof (InstancePaths.stem_ext pattern) as Hs. simpl in Hs.
    set (ext := Filepath.Ext pattern) in *.
    set (stem := substring 0 (String.length pattern - String.length ext)
                   pattern) in *.
    exists stem. split; [now symmetry|].
    unfold RunMulti.statsFilePath.
    destruct (String.eqb_spec pattern ""); [congruence|].
    fold ext. fold stem. apply ChildFacts.Join_child.
    + rewrite <- Hs in Hn. apply ChildFacts.nosep_append.
      * now apply ChildFacts.nosep_prefix in Hn.
      * apply ChildFacts.nosep_append; [apply InstancePaths.nosep_instance|].
        apply ChildFacts.nosep_append;
          [apply InstancePaths.nosep_sprintf_d | apply FilepathFacts.nosep_Ext].
    + rewrite !InstancePaths.length_append. simpl. lia.
Qed.

Lemma instance_paths_under_base_witness :
  RunMulti.instanceDataDir "/var/lib/conduit/../conduit/" 7
  = "/var/lib/conduit/instance-7" /\
  exists stem,
    "stats.tar.gz" = stem ++ ".gz" /\
    RunMulti.statsFilePath "./data" "stats.tar.gz" 7
    = "data/" ++ stem ++ "-instance-" ++ "7" ++ ".gz".
Proof.
  split.
  - apply (proj1 (instance_paths_under_base "/var/lib/conduit/../conduit/"
                    "" 7)).
  - apply (proj2 (instance_paths_under_base "./data" "stats.tar.gz" 7));
      [discriminate | repeat constructor].
Defined.

(** X10: a helper returns only the collector whose registration just
    succeeded, or the collector [Register] reported as already registered
    when that one passes the helper's type assertion; it never returns
    after any other answer of [Register], and the process is then as
    [Register] left it. *)
Theorem helpers_return_registered_only
    {GaugeOpts Func Collector Proc : Type}
    (P : Metrics.Prometheus GaugeOpts Func Collector Proc)
    (o : GaugeOpts) (labels : list string) (function : Func)
    (p p' : Proc) (g : Collector) :
  (Metrics.newGauge P o p = (Metrics.Returned g, p') ->
   let s := Metrics.NewGauge P o p in
   Metrics.Register P (fst s) (snd s) = (None, p') /\ g = fst s \/
   exists new,
     Metrics.Register P (fst s) (snd s)
     = (Some (Metrics.AlreadyRegisteredError g new), p') /\
     Metrics.isGauge P g = true) /\
  (Metrics.newGaugeVec P o labels p = (Metrics.Returned g, p') ->
   let s := Metrics.NewGaugeVec P o labels p in
   Metrics.Register P (fst s) (snd s) = (None, p') /\ g = fst s \/
   exists new,
     Metrics.Register P (fst s) (snd s)
     = (Some (Metrics.AlreadyRegisteredError g new), p') /\
     Metrics.isGaugeVec P g = true) /\
  (Metrics.newGaugeFunc P o function p = (Metrics.Returned g, p') ->
   let s := Metrics.NewGaugeFunc P o function p in
   Metrics.Register P (fst s) (snd s) = (None, p') /\ g = fst s \/
   exists new,
     Metrics.Register P (fst s) (snd s)
     = (Some (Metrics.AlreadyRegisteredError g new), p') /\
     Metrics.isGaugeFunc P g = true).
Proof.
  repeat split.
  - unfold Metrics.newGauge.
    destruct (Metrics.NewGauge P o p) as [ev p1]. simpl.
    destruct (Metrics.Register P ev p1) as [[[existing new|e]|] p2].
    + destruct (Metrics.isGauge P existing) eqn:Hc; intros H; inversion H;
        subst. right. exists new. auto.
    + discriminate.
    + intros H. inversion H; subst. auto.
  - unfold Metrics.newGaugeVec.
    destruct (Metrics.NewGaugeVec P o labels p) as [ev p1]. simpl.
    destruct (Metrics.Register P ev p1) as [[[existing new|e]|] p2].
    + destruct (Metrics.isGaugeVec P existing) eqn:Hc; intros H; inversion H;
        subst. right. exists new. auto.
    + discriminate.
    + intros H. inversion H; subst. auto.
  - unfold Metrics.newGaugeFunc.
    destruct (Metrics.NewGaugeFunc P o function p) as [ev p1]. simpl.
    destruct (Metrics.Register P ev p1) as [[[existing new|e]|] p2].
    + destruct (Metrics.isGaugeFunc P existing) eqn:Hc; intros H; inversion H;
        subst. right. exists new. auto.
    + discriminate.
    + intros H. inversion H; subst. auto.
Qed.

Lemma helpers_return_registered_only_witness :
  let o := {| Metrics.Namespace := ""; Metrics.Subsystem := "";
              Metrics.Name := "conduit_connected_clients";
              Metrics.Help := "Clients connected";
              Metrics.ConstLabels := [] |} in
  let first := {| Metrics.addr := 0; Metrics.kind := Metrics.KGauge;
                  Metrics.desc := Metrics.descOf o [] |} in
  let p0 := {| Metrics.next := 0; Metrics.registry := [] |} in
  let p1 := {| Metrics.next := 1; Metrics.registry := [first] |} in
  let L := Metrics.prometheus Metrics.named unit in
  Metrics.newGauge L o p0 = (Metrics.Returned first, p1) /\
  (Metrics.Register L first {| Metrics.next := 1; Metrics.registry := [] |}
   = (None, p1) /\ first = first \/
   exists new,
     Metrics.Register L first {| Metrics.next := 1; Metrics.registry := [] |}
     = (Some (Metrics.AlreadyRegisteredError first new), p1) /\
     Metrics.isGauge L first = true).
Proof.
  intros o first p0 p1 L. split; [reflexivity|].
  apply (proj1 (helpers_return_registered_only L o [] tt p0 p1 first)).
  reflexivity.
Defined.

(** ** The result of a run *)

Module ServeFacts.

Import RunMulti.

Section Serve.

Context {float64 Host Config MultiService : Type}.
Variable E : Externals float64 Host Config MultiService.
Variable F : Flags float64.

(** Signals, the listener and [cancel()] leave the host alone. *)
Lemma cancel_host (s : Conc * World Host) :
  host (snd (cancel s)) = host (snd s).
Proof. destruct s as [c w]. unfold cancel. now destruct (ctxDone c). Qed.

Lemma async_host (s : Conc * World Host) (ev : AsyncEvent) :
  host (snd (async s ev)) = host (snd s).
Proof.
  destruct s as [c w]. destruct ev as [sig|]; simpl.
  - now destruct (List.length (sigChan c) <? 1)%nat.
  - destruct (pc c); simpl; try reflexivity.
    + now destruct (sigChan c).
    + now destruct (ctxDone c).
Qed.

Lemma asyncs_host (evs : list AsyncEvent) :
  forall s : Conc * World Host, host (snd (asyncs evs s)) = host (snd s).
Proof.
  unfold asyncs. induction evs as [|ev evs IH]; intros s; [reflexivity|].
  cbn [fold_left]. now rewrite IH, async_host.
Qed.

Lemma untilRunReturns_host (sched : Schedule) (w : World Host) :
  host (snd (untilRunReturns E F sched w)) = host w.
Proof.
  unfold untilRunReturns.
  pose proof (asyncs_host (beforeRun sched)
                ({| sigChan := []; pc := AtReceive; ctxDone := false |}, w))
    as H.
  destruct (asyncs (beforeRun sched) _) as [c1 w1]. simpl in H.
  now rewrite asyncs_host.
Qed.

(** The result of [serve] and the host it leaves, by the answer of
    [Run]. *)
Lemma serve_result (multiService : MultiService) (sched : Schedule)
    (w : World Host) :
  let cancelled := ctxDone (fst (untilRunReturns E F sched w)) in
  let ran := conduit_Run E multiService cancelled (host w) in
  fst (serve E F multiService sched w)
  = match fst ran with
    | Some e =>
        if cancelled then None
        else Some (Errorf_w "multi-instance service error: " e)
    | None => None
    end /\
  host (snd (serve E F multiService sched w)) = snd ran.
Proof.
  unfold serve.
  pose proof (untilRunReturns_host sched w) as Hh.
  destruct (untilRunReturns E F sched w) as [c w1]. simpl in Hh |- *.
  rewrite Hh.
  destruct (conduit_Run E multiService (ctxDone c) (host w)) as [err h].
  cbn [fst snd].
  assert (Hfinish :
    forall r,
      r = (let (c3, w3) :=
             asyncs (afterRun sched) (c, {| host := h; log := log w1 |}) in
           (@None error,
            snd (cancel (c3, emit (Printed ("All instances stopped." ++ nl))
                               w3)))) ->
      fst r = None /\ host (snd r) = h).
  { intros r ->.
    pose proof (asyncs_host (afterRun sched)
                  (c, {| host := h; log := log w1 |})) as H3.
    destruct (asyncs (afterRun sched) _) as [c3 w3]. simpl in H3.
    cbn [fst snd]. split; [reflexivity|].
    etransitivity; [apply cancel_host | exact H3]. }
  destruct err as [e|]; [|now apply Hfinish].
  destruct (ctxDone c) eqn:Hd; cbn [negb]; [now apply Hfinish|].
  split; reflexivity.
Qed.

End Serve.

End ServeFacts.

(** X12: after a configuration that succeeded, [runMulti] returns [nil]
    exactly when [Run] returned [nil] or the context was cancelled when
    [Run] returned; in particular a service that stops by itself without
    error gives [nil].  [Run] is called on the host as configuration left
    it, and the host [runMulti] leaves is the host as [Run] left it:
    signals, the listener and the final messages do not touch it. *)
Theorem runMulti_nil_iff
    {float64 Host Config MultiService : Type}
    (E : RunMulti.Externals float64 Host Config MultiService)
    (F : RunMulti.Flags float64) (sched : RunMulti.Schedule)
    (w w1 : RunMulti.World Host) (multiService : MultiService) :
  RunMulti.setup E F w = (inr multiService, w1) ->
  let cancelled :=
    RunMulti.ctxDone (fst (RunMulti.untilRunReturns E F sched w1)) in
  let ran :=
    RunMulti.conduit_Run E multiService cancelled (RunMulti.host w1) in
  (fst (RunMulti.runMulti E F sched w) = None <->
   fst ran = None \/ cancelled = true) /\
  RunMulti.host (snd (RunMulti.runMulti E F sched w)) = snd ran.
Proof.
  intros Hsetup cancelled ran.
  unfold RunMulti.runMulti. rewrite Hsetup.
  destruct (ServeFacts.serve_result E F multiService sched w1) as [Hr Hh].
  fold cancelled in Hr, Hh. fold ran in Hr, Hh.
  split; [|exact Hh]. rewrite Hr.
  destruct (fst ran) as [e|]; [|tauto].
  destruct cancelled; split; auto.
  - discriminate.
  - intros [H | H]; discriminate.
Qed.

Lemma runMulti_nil_iff_witness :
  (fst (RunMulti.runMulti (Scenario.failingAt "none") Demo.flags Demo.quiet
          Demo.world) = None <->
   @None error = None \/ false = true) /\
  RunMulti.host (snd (RunMulti.runMulti (Scenario.failingAt "none") Demo.flags
                        Demo.quiet Demo.world))
  = ["/tmp/x/instance-3"; "/tmp/x/instance-2"; "/tmp/x/instance-1";
     "/tmp/x/instance-0"; "/tmp/x"; "./config.json"].
Proof.
  apply (runMulti_nil_iff (Scenario.failingAt "none") Demo.flags Demo.quiet
           Demo.world _ _ eq_refl).
Defined.

(** X13: a run during which no signal is delivered never prints the
    shutdown notice.  After a configuration that succeeded its log grows
    by exactly the startup message, then "All instances stopped." when
    [Run] returned [nil], and last the cancellation of the context by the
    deferred [cancel()]; and it returns [nil] exactly when [Run] did. *)
Theorem quiet_run
    {float64 Host Config MultiService : Type}
    (E : RunMulti.Externals float64 Host Config MultiService)
    (F : RunMulti.Flags float64) (sched : RunMulti.Schedule)
    (w w1 : RunMulti.World Host) (multiService : MultiService) :
  RunMulti.setup E F w = (inr multiService, w1) ->
  RunMulti.noSignal (RunMulti.beforeRun sched) ->
  RunMulti.noSignal (RunMulti.duringRun sched) ->
  RunMulti.noSignal (RunMulti.afterRun sched) ->
  let ran := RunMulti.conduit_Run E multiService false (RunMulti.host w1) in
  fst (RunMulti.runMulti E F sched w)
  = match fst ran with
    | Some e => Some (Errorf_w "multi-instance service error: " e)
    | None => None
    end /\
  RunMulti.log (snd (RunMulti.runMulti E F sched w))
  = (RunMulti.log w
     ++ RunMulti.Printed (RunMulti.startupMessage E F)
        :: match fst ran with
           | Some _ => [RunMulti.CtxCancelled]
           | None => [RunMulti.Printed Vocabulary.stoppedMessage;
                      RunMulti.CtxCancelled]
           end)%list.
Proof.
  intros Hsetup Hb Hd Ha ran.
  pose proof (BridgeFacts.setup_log E F w) as Hlog.
  rewrite Hsetup in Hlog. simpl in Hlog. rewrite <- Hlog.
  unfold RunMulti.runMulti. rewrite Hsetup.
  unfold RunMulti.serve, RunMulti.untilRunReturns.
  rewrite (BridgeFacts.asyncs_noSignal _ _ _ Hb) by reflexivity.
  rewrite (BridgeFacts.asyncs_noSignal _ _ _ Hd) by reflexivity.
  cbn [RunMulti.ctxDone RunMulti.host RunMulti.emit negb].
  fold ran. destruct ran as [[e|] h]; cbn [fst].
  - split; [reflexivity|]. simpl. now rewrite <- app_assoc.
  - rewrite (BridgeFacts.asyncs_noSignal _ _ _ Ha) by reflexivity.
    split; [reflexivity|]. simpl. now rewrite <- !app_assoc.
Qed.

Lemma quiet_run_witness :
  fst (RunMulti.runMulti (Scenario.failingAt "none") Demo.flags
         {| RunMulti.beforeRun := [RunMulti.Listener];
            RunMulti.duringRun := [RunMulti.Listener; RunMulti.Listener];
            RunMulti.afterRun := [] |} Demo.world) = None /\
  RunMulti.log (snd (RunMulti.runMulti (Scenario.failingAt "none") Demo.flags
                       {| RunMulti.beforeRun := [RunMulti.Listener];
                          RunMulti.duringRun :=
                            [RunMulti.Listener; RunMulti.Listener];
                          RunMulti.afterRun := [] |} Demo.world))
  = [RunMulti.Printed
       (RunMulti.startupMessage (Scenario.failingAt "none") Demo.flags);
     RunMulti.Printed Vocabulary.stoppedMessage; RunMulti.CtxCancelled].
Proof.
  apply (quiet_run (Scenario.failingAt "none") Demo.flags
           {| RunMulti.beforeRun := [RunMulti.Listener];
              RunMulti.duringRun := [RunMulti.Listener; RunMulti.Listener];
              RunMulti.afterRun := [] |} Demo.world _ _ eq_refl);
    intros sig H; simpl in H; intuition discriminate.
Defined.

(** ** The errors of a run *)

Module ErrorFacts.

Import RunMulti.

Section Errors.

Context {float64 Host Config MultiService : Type}.
Variable E : Externals float64 Host Config MultiService.
Variable F : Flags float64.

Lemma configSource_fails (h : Host) (e : error) :
  configSource E F h = inl e ->
  e = errorString ("psiphon config file not found: " ++ multiPsiphonConfig F)
  \/ e = errorString
           "psiphon config required: use --psiphon-config flag or build with embedded config".
Proof.
  unfold configSource.
  destruct (negb (multiPsiphonConfig F =? "")%string).
  - destruct (os_Stat_IsNotExist E (multiPsiphonConfig F) h);
      intros H; inversion H. now left.
  - destruct (config_HasEmbeddedConfig E); intros H; inversion H. now right.
Qed.

End Errors.

End ErrorFacts.

(** X4: every error [runMulti] returns is one of seven.  Three are the
    errors of validation (instance count, config file not found, config
    required), made of a message alone and returned with the world
    untouched.  The other four wrap, under the message of their stage, the
    very error a collaborator returned, so that [Unwrap] gives it back:
    the error of [MkdirAll] on the base directory; the error of
    [LoadOrCreate] for the first instance it failed for, the instances
    before it configured; the error of [NewMultiService] on the
    configurations of the loop; the error of [Run] on the service
    configuration gave, the context not being cancelled.  In each case the
    host is as the failing collaborator left it, and only the last is
    returned after anything was printed. *)
Theorem runMulti_errors
    {float64 Host Config MultiService : Type}
    (E : RunMulti.Externals float64 Host Config MultiService)
    (F : RunMulti.Flags float64) (sched : RunMulti.Schedule)
    (w w' : RunMulti.World Host) (e : error) :
  RunMulti.runMulti E F sched w = (Some e, w') ->
  let base := RunMulti.cmd_GetDataDir E in
  (w' = w /\
   (e = errorString "instances must be between 1 and 32" \/
    e = errorString ("psiphon config file not found: "
                     ++ RunMulti.multiPsiphonConfig F) \/
    e = errorString
          "psiphon config required: use --psiphon-config flag or build with embedded config"))
  \/
  (exists cause,
     Unwrap e = Some cause /\
     ((RunMulti.log w' = RunMulti.log w /\
       ((RunMulti.os_MkdirAll E base 448 (RunMulti.host w)
         = (Some cause, RunMulti.host w') /\
         Error e = "failed to create base data directory: " ++ Error cause) \/
        (exists path useEmbedded h1 k cfgs hk,
           RunMulti.configSource E F (RunMulti.host w)
           = inr (path, useEmbedded) /\
           RunMulti.os_MkdirAll E base 448 (RunMulti.host w) = (None, h1) /\
           0 <= Z.of_nat k < RunMulti.multiInstances F /\
           RunMulti.instanceLoop E F base path useEmbedded k 0 [] h1
           = (inr cfgs, hk) /\
           RunMulti.config_LoadOrCreate E
             (RunMulti.instanceOptions E F base path useEmbedded (Z.of_nat k))
             hk = (inl cause, RunMulti.host w') /\
           Error e = "failed to create config for instance "
                     ++ sprintf_d (Z.of_nat k) ++ ": " ++ Error cause) \/
        (exists path useEmbedded h1 cfgs h2,
           RunMulti.configSource E F (RunMulti.host w)
           = inr (path, useEmbedded) /\
           RunMulti.os_MkdirAll E base 448 (RunMulti.host w) = (None, h1) /\
           RunMulti.instanceLoop E F base path useEmbedded
             (Z.to_nat (RunMulti.multiInstances F)) 0 [] h1 = (inr cfgs, h2) /\
           RunMulti.conduit_NewMultiService E cfgs h2
           = (inl cause, RunMulti.host w') /\
           Error e = "failed to create multi-instance service: "
                     ++ Error cause)))
      \/
      (exists multiService w1,
         RunMulti.setup E F w = (inr multiService, w1) /\
         RunMulti.ctxDone (fst (RunMulti.untilRunReturns E F sched w1)) = false /\
         RunMulti.conduit_Run E multiService false (RunMulti.host w1)
         = (Some cause, RunMulti.host w') /\
         Error e = "multi-instance service error: " ++ Error cause))).
Proof.
  intros H base. unfold RunMulti.runMulti in H.
  destruct (RunMulti.setup E F w) as [[err|svc] w1] eqn:Hsetup.
  - inversion H; subst; clear H. revert Hsetup. unfold RunMulti.setup.
    destruct ((RunMulti.multiInstances F <? 1) || (RunMulti.multiInstances F >? 32))
      eqn:Hn.
    { intros H. inversion H; subst. left. auto. }
    destruct (RunMulti.configSource E F (RunMulti.host w)) as [err|[p u]]
      eqn:Hsrc.
    { intros H. inversion H; subst. left. split; [reflexivity|]. right.
      now apply ErrorFacts.configSource_fails in Hsrc. }
    fold base.
    destruct (RunMulti.os_MkdirAll E base 448 (RunMulti.host w))
      as [[err|] h1] eqn:Hmk.
    { intros H. inversion H; subst. right. exists err. simpl.
      split; [reflexivity|]. left. split; [reflexivity|]. left. auto. }
    destruct (RunMulti.instanceLoop E F base p u
                (Z.to_nat (RunMulti.multiInstances F)) 0 [] h1)
      as [[err|cfgs] h2] eqn:Hloop.
    { intros H. inversion H; subst. right.
      apply LoopAny.loop_fails in Hloop.
      destruct Hloop as (k & cs & hk & cause & Hk & Hpre & Hcall & ->).
      exists cause. simpl. split; [reflexivity|]. left. split; [reflexivity|].
      right. left. exists p, u, h1, k, cs, hk. simpl in Hcall.
      repeat split; try assumption; try lia.
      now rewrite !InstancePaths.append_assoc. }
    destruct (RunMulti.conduit_NewMultiService E cfgs h2) as [[err|s] h3]
      eqn:Hnew; intros H; inversion H; subst.
    right. exists err. simpl. split; [reflexivity|]. left.
    split; [reflexivity|]. right. right. exists p, u, h1, cfgs, h2.
    repeat split; assumption.
  - right.
    destruct (ServeFacts.serve_result E F svc sched w1) as [Hr Hh].
    rewrite H in Hr, Hh. simpl in Hr, Hh.
    destruct (RunMulti.ctxDone (fst (RunMulti.untilRunReturns E F sched w1)))
      eqn:Hd.
    + destruct (fst (RunMulti.conduit_Run E svc true (RunMulti.host w1)));
        discriminate.
    + destruct (RunMulti.conduit_Run E svc false (RunMulti.host w1))
        as [[cause|] h] eqn:Hrun; simpl in Hr, Hh; [|discriminate].
      inversion Hr; subst. exists cause. simpl. split; [reflexivity|].
      right. exists svc, w1.
      split; [reflexivity|]. split; [exact Hd|].
      split; [exact Hrun | reflexivity].
Qed.

Lemma runMulti_errors_witness :
  exists multiService w1 cause,
    RunMulti.setup Demo.externals Demo.flags Demo.world
    = (inr multiService, w1) /\
    RunMulti.conduit_Run Demo.externals multiService false (RunMulti.host w1)
    = (Some cause, ["/tmp/x"; "./config.json"]) /\
    Unwrap (Errorf_w "multi-instance service error: "
              (errorString "broker unreachable")) = Some cause.
Proof.
  destruct (runMulti_errors Demo.externals Demo.flags Demo.quiet Demo.world
              _ _ eq_refl) as [[_ [H | [H | H]]] | (cause & Hu & H)];
    try discriminate H.
  destruct H as [[_ [[_ H] | [H | H]]] | (svc & w1 & Hs & _ & Hrun & _)].
  - discriminate H.
  - destruct H as (? & ? & ? & ? & ? & ? & _ & _ & _ & _ & _ & H).
    discriminate H.
  - destruct H as (? & ? & ? & ? & ? & _ & _ & _ & _ & H). discriminate H.
  - exists svc, w1, cause. repeat split; assumption.
Defined.
